(** * Slack user-group reconciliation of the cncfSlack plugin

    A shallow embedding of [src/permissions/plugins/cncfSlack/index.ts]:
    the two loaders ([getAllGroups], [getAllUsers]), the formatter
    [englishCommaJoin] and the per-team reconciliation [handleTeam],
    followed by the properties of the written specification that can be
    decided on them. *)

From Stdlib Require Import String Ascii Bool Arith Lia Permutation.
From stdpp Require Import gmap strings list fin_maps sorting.

Local Open Scope string_scope.
Local Open Scope list_scope.

(** ** The JavaScript built-ins the plugin calls

    Strings are sequences of bytes; the user names and Slack ids the plugin
    handles are ASCII, on which UTF-16 code-unit order and byte order
    agree and on which [toLowerCase] only touches [A-Z]. *)
Module JS.

(** [c.toLowerCase()] on one character. *)
Definition lowerChar (c : ascii) : ascii :=
  let n := nat_of_ascii c in
  if ((65 <=? n) && (n <=? 90))%nat then ascii_of_nat (n + 32) else c.

(** [s.toLowerCase()]. *)
Fixpoint toLowerCase (s : string) : string :=
  match s with
  | EmptyString => EmptyString
  | String c r => String (lowerChar c) (toLowerCase r)
  end.

(** [s.replace(pat, rep)] with a string pattern: only the first
    occurrence of [pat] is replaced. *)
Fixpoint replace (pat rep s : string) : string :=
  if String.prefix pat s
  then rep +:+ String.substring (String.length pat)
                                (String.length s - String.length pat)%nat s
  else match s with
       | EmptyString => EmptyString
       | String c r => String c (replace pat rep r)
       end.

(** [arr.join(sep)] on an array of strings. *)
Definition join (sep : string) (arr : list string) : string :=
  String.concat sep arr.

(** [arr.slice(from, to)] for indices within [0 .. arr.length]. *)
Definition slice {A} (from to : nat) (arr : list A) : list A :=
  take (to - from)%nat (drop from arr).

(** [arr.includes(x)] on an array of strings. *)
Definition includes (arr : list string) (x : string) : bool :=
  existsb (String.eqb x) arr.

(** [arr.find(p)]. *)
Fixpoint find {A} (p : A -> bool) (arr : list A) : option A :=
  match arr with
  | [] => None
  | x :: r => if p x then Some x else find p r
  end.

(** [arr.sort()] without a comparator orders strings by code units.
    The order is total and antisymmetric, so the result does not depend
    on the engine's algorithm; insertion sort computes it. *)
Fixpoint insert (x : string) (arr : list string) : list string :=
  match arr with
  | [] => [x]
  | y :: r => if String.leb x y then x :: y :: r else y :: insert x r
  end.

Definition sort (arr : list string) : list string :=
  foldr insert [] arr.

(** [JSON.stringify(a) === JSON.stringify(b)] on two arrays of strings:
    the serialisation of an array of strings is injective, so the
    comparison is equality of the arrays. *)
Definition sameJSON (a b : list string) : bool :=
  bool_decide (a = b).

End JS.

(** ** Data model *)

(** [interface UserGroup]. *)
Record UserGroup := {
  id : string;
  date_delete : nat;
  name : string;
  handle : string;
  users : list string;
  is_external : bool
}.

(** [interface CncfPerson]. *)
Record CncfPerson := {
  person_name : string;
  email : string;
  github : string;
  slack_id : string;
  category : string
}.

(** The [slack] field of [TeamConfig]: absent, a boolean, or a handle. *)
Inductive SlackSetting :=
| SlackAbsent
| SlackBool (b : bool)
| SlackHandle (h : string).

(** The fields of [TeamConfig] that [handleTeam] reads. *)
Record TeamConfig := {
  team_name : string;
  displayName : option string;
  slack : SlackSetting;
  maintainers : list string;
  members : list string
}.

#[global] Instance UserGroup_eq_dec : EqDecision UserGroup.
Proof. solve_decision. Defined.
#[global] Instance CncfPerson_eq_dec : EqDecision CncfPerson.
Proof. solve_decision. Defined.

(** ** getAllGroups *)

(** The options object passed to [client.usergroups.list]. *)
Record ListOptions := {
  include_users : bool;
  include_disabled : bool
}.

Definition listOptions : ListOptions :=
  {| include_users := true; include_disabled := true |}.

(** [getAllGroups]: one listing call, then the external groups are
    dropped.  [usergroups_list] stands for [client.usergroups.list].
    [memoize] keeps the result for later calls; a call of [handleTeam]
    reads it once, before its first event. *)
Definition getAllGroups (usergroups_list : ListOptions -> list UserGroup)
  : list UserGroup :=
  filter (fun g => negb (is_external g) = true) (usergroups_list listOptions).

(** ** getAllUsers *)

(** The two indexes returned by [getAllUsers]. *)
Record Users := {
  cncfBySlackID : gmap string CncfPerson;
  cncfByGithub : gmap string CncfPerson
}.

Definition noUsers : Users :=
  {| cncfBySlackID := ∅; cncfByGithub := ∅ |}.

(** [entry.github = entry.github.replace(..).replace(..)]. *)
Definition stripGithub (entry : CncfPerson) : CncfPerson :=
  {| person_name := person_name entry;
     email := email entry;
     github := JS.replace "//$/" "" (JS.replace "https://github.com/" "" (github entry));
     slack_id := slack_id entry;
     category := category entry |}.

(** One iteration of the loop over [peopleData]. *)
Definition addEntry (idx : Users) (entry : CncfPerson) : Users :=
  if negb (String.eqb (slack_id entry) "") then
    let entry' := stripGithub entry in
    {| cncfBySlackID := <[slack_id entry' := entry']> (cncfBySlackID idx);
       cncfByGithub := <[github entry' := entry']> (cncfByGithub idx) |}
  else idx.

Definition getAllUsers (peopleData : list CncfPerson) : Users :=
  foldl addEntry noUsers peopleData.

(** ** englishCommaJoin *)

Definition englishCommaJoin (arr : list string) : string :=
  if (length arr <=? 1)%nat then JS.join "," arr
  else JS.join ", " (JS.slice 0 (length arr - 2)%nat arr)
       +:+ " and " +:+ nth (length arr - 1)%nat arr "".

(** ** Effects of handleTeam

    [handleTeam] reports through [builder.addContext] and talks to Slack
    through [client]; a rejected call throws and ends the function.  Both
    are kept in a trace: the change events in emission order and the
    mutating requests in issue order.  The [console.info] lines repeat
    the messages on the process log and are left out. *)

(** The four messages handed to [builder.addContext]. *)
Inductive Event :=
| GroupCreated (groupHandle : string)
| GroupRenamed (groupHandle oldName newName : string)
| MembersRemoved (identities groupHandle : string)
| MembersAdded (identities groupHandle : string).

(** The text of each message, as the template literals build it. *)
Definition message (e : Event) : string :=
  match e with
  | GroupCreated h =>
      ":slack: :tada: Creating Slack User Group with handle `" +:+ h
      +:+ "` as it did not exist"
  | GroupRenamed h old new =>
      ":slack: :pencil2: Updating Slack User Group Name for `" +:+ h
      +:+ "` from `" +:+ old +:+ "` :arrow_right: `" +:+ new +:+ "`"
  | MembersRemoved who h =>
      ":slack: :skull_and_crossbones: Evicting " +:+ who
      +:+ " out of Slack User Group `" +:+ h +:+ "`"
  | MembersAdded who h =>
      ":slack: :new: Adding `" +:+ who +:+ "` to Slack User Group `" +:+ h +:+ "`"
  end.

(** The three mutating requests, with the fields of their argument. *)
Inductive Call :=
| UsergroupsCreate (groupHandle groupName : string)
| UsergroupsUpdate (usergroup groupName : string)
| UsergroupsUsersUpdate (usergroup usersPayload : string).

#[global] Instance Event_eq_dec : EqDecision Event.
Proof. solve_decision. Defined.
#[global] Instance Call_eq_dec : EqDecision Call.
Proof. solve_decision. Defined.

(** What Slack answers.  The listing and the directory file are read
    before the first event; a run in which one of those reads fails emits
    nothing and is not modelled.  The mutating requests and the second
    listing after a creation may each be rejected. *)
Record Client := {
  usergroups_list : ListOptions -> list UserGroup;
  usergroups_create : string -> string -> option string;
  usergroups_list_again : ListOptions -> option (list UserGroup);
  usergroups_update : string -> string -> bool;
  usergroups_users_update : string -> string -> bool
}.

Record Trace := {
  events : list Event;
  calls : list Call
}.

Inductive Result (A : Type) :=
| Done (a : A)
| Thrown.
Arguments Done {A} a.
Arguments Thrown {A}.

Definition M (A : Type) : Type := Trace -> Trace * Result A.

Definition ret {A} (a : A) : M A := fun t => (t, Done a).

Definition bind {A B} (k : A -> M B) (m : M A) : M B :=
  fun t => match m t with
           | (t', Done a) => k a t'
           | (t', Thrown) => (t', Thrown)
           end.

#[global] Instance M_ret : MRet M := @ret.
#[global] Instance M_bind : MBind M := @bind.

(** [builder.addContext(message e)]. *)
Definition addContext (e : Event) : M unit :=
  fun t => ({| events := events t ++ [e]; calls := calls t |}, Done tt).

(** A mutating request: it is recorded, then answered. *)
Definition request {A} (c : Call) (answer : option A) : M A :=
  fun t => ({| events := events t; calls := calls t ++ [c] |},
            match answer with Some a => Done a | None => Thrown end).

(** A read that may be rejected. *)
Definition await {A} (answer : option A) : M A :=
  fun t => (t, match answer with Some a => Done a | None => Thrown end).

(** [throw]. *)
Definition throw {A} : M A := fun t => (t, Thrown).

Definition when (b : bool) (m : M unit) : M unit :=
  if b then m else ret tt.

Definition accepted (b : bool) : option unit :=
  if b then Some tt else None.

Definition run {A} (m : M A) : Trace * Result A :=
  m {| events := []; calls := [] |}.

(** ** handleTeam *)

(** [!team.slack] is false exactly on [true] and on a non-empty string. *)
Definition slackTruthy (s : SlackSetting) : bool :=
  match s with
  | SlackAbsent => false
  | SlackBool b => b
  | SlackHandle h => negb (String.eqb h "")
  end.

(** [team.slack === true ? team.name : team.slack], read after the guard. *)
Definition groupNameOf (team : TeamConfig) : string :=
  match slack team with
  | SlackHandle h => h
  | _ => team_name team
  end.

(** [team.displayName || team.name]: an empty display name is falsy. *)
Definition userGroupNameOf (team : TeamConfig) : string :=
  match displayName team with
  | Some d => if String.eqb d "" then team_name team else d
  | None => team_name team
  end.

(** The object literal both creation branches assign to [existingGroup]. *)
Definition newGroup (groupId userGroupName groupName : string) : UserGroup :=
  {| id := groupId;
     name := userGroupName;
     handle := groupName;
     date_delete := 0;
     is_external := false;
     users := [] |}.

(** The loop that fills [expectedUserIds]. *)
Fixpoint pushExpected (byGithub : gmap string CncfPerson)
    (usernames : list string) (expectedUserIds : list string) : list string :=
  match usernames with
  | [] => expectedUserIds
  | username :: rest =>
      match byGithub !! JS.toLowerCase username with
      | None => pushExpected byGithub rest expectedUserIds
      | Some cncfUser =>
          pushExpected byGithub rest (expectedUserIds ++ [slack_id cncfUser])
      end
  end.

(** The loop that fills [usernamesToAdd]; the non-null assertion throws
    when the id is not a key of [cncfBySlackID]. *)
Fixpoint pushToAdd (bySlackID : gmap string CncfPerson)
    (existingUsers : list string) (ids : list string)
    (usernamesToAdd : list string) : M (list string) :=
  match ids with
  | [] => ret usernamesToAdd
  | userId :: rest =>
      if negb (JS.includes existingUsers userId) then
        match bySlackID !! userId with
        | Some cncfUser =>
            pushToAdd bySlackID existingUsers rest
                      (usernamesToAdd ++ [github cncfUser])
        | None => throw
        end
      else pushToAdd bySlackID existingUsers rest usernamesToAdd
  end.

(** The loop that fills [usernamesToRemove]. *)
Fixpoint pushToRemove (bySlackID : gmap string CncfPerson)
    (expectedUserIds : list string) (ids : list string)
    (usernamesToRemove : list string) : list string :=
  match ids with
  | [] => usernamesToRemove
  | userId :: rest =>
      if negb (JS.includes expectedUserIds userId) then
        pushToRemove bySlackID expectedUserIds rest
          (usernamesToRemove ++
             [match bySlackID !! userId with
              | Some cncfUser => "`" +:+ github cncfUser +:+ "`"
              | None => "<@" +:+ userId +:+ ">"
              end])
      else pushToRemove bySlackID expectedUserIds rest usernamesToRemove
  end.

(** Lines 97-133: the group with the team's handle, created when absent. *)
Definition ensureGroup (IS_DRY_RUN : bool) (client : Client)
    (groups : list UserGroup) (groupName userGroupName : string) : M UserGroup :=
  match JS.find (fun g => String.eqb (handle g) groupName) groups with
  | Some g => ret g
  | None =>
      addContext (GroupCreated groupName) ;;
      if negb IS_DRY_RUN then
        usergroupId ← request (UsergroupsCreate groupName userGroupName)
                              (usergroups_create client groupName userGroupName);
        await (usergroups_list_again client listOptions) ;;
        ret (newGroup usergroupId userGroupName groupName)
      else ret (newGroup "NEW_USER_GROUP_ID" userGroupName groupName)
  end.

(** Lines 135-154: the name check. *)
Definition ensureName (IS_DRY_RUN : bool) (client : Client)
    (existingGroup : UserGroup) (userGroupName : string) : M unit :=
  when (negb (String.eqb (name existingGroup) userGroupName))
    (addContext (GroupRenamed (handle existingGroup) (name existingGroup)
                              userGroupName) ;;
     when (negb IS_DRY_RUN)
       (request (UsergroupsUpdate (id existingGroup) userGroupName)
          (accepted (usergroups_update client (id existingGroup) userGroupName)))).

(** Lines 156-161 and 164: the sorted [expectedUserIds]. *)
Definition expectedUserIdsOf (idx : Users) (team : TeamConfig) : list string :=
  JS.sort (pushExpected (cncfByGithub idx)
                        (maintainers team ++ members team) []).

(** Lines 163-213: the membership check on the group at hand.  Both
    arrays are sorted in place before they are compared, and the two loops
    run over the sorted arrays. *)
Definition ensureMembers (IS_DRY_RUN : bool) (client : Client) (idx : Users)
    (existingGroup : UserGroup) (team : TeamConfig) : M unit :=
  let existingUsers := JS.sort (users existingGroup) in
  let expectedUserIds := expectedUserIdsOf idx team in
  if JS.sameJSON existingUsers expectedUserIds then ret tt
  else
    usernamesToAdd ← pushToAdd (cncfBySlackID idx) existingUsers
                               expectedUserIds [];
    let usernamesToRemove :=
      pushToRemove (cncfBySlackID idx) expectedUserIds existingUsers [] in
    when (negb (length usernamesToRemove =? 0)%nat)
      (addContext (MembersRemoved (englishCommaJoin usernamesToRemove)
                                  (handle existingGroup))) ;;
    when (negb (length usernamesToAdd =? 0)%nat)
      (addContext (MembersAdded (englishCommaJoin usernamesToAdd)
                                (handle existingGroup))) ;;
    when (negb IS_DRY_RUN)
      (request (UsergroupsUsersUpdate (id existingGroup)
                                      (JS.join "," expectedUserIds))
         (accepted (usergroups_users_update client (id existingGroup)
                      (JS.join "," expectedUserIds)))).

(** [CncfSlackPlugin.handleTeam]; [peopleData] is the parsed people.json. *)
Definition handleTeam (IS_DRY_RUN : bool) (client : Client)
    (peopleData : list CncfPerson) (team : TeamConfig) : M unit :=
  if negb (slackTruthy (slack team)) then ret tt
  else
    let groups := getAllGroups (usergroups_list client) in
    let idx := getAllUsers peopleData in
    let groupName := groupNameOf team in
    let userGroupName := userGroupNameOf team in
    existingGroup ← ensureGroup IS_DRY_RUN client groups groupName userGroupName;
    ensureName IS_DRY_RUN client existingGroup userGroupName ;;
    ensureMembers IS_DRY_RUN client idx existingGroup team.

(** ** Slack's side of the three requests

    Slack is an external collaborator; its side is taken from the
    interface the specification gives it (create a group under a handle
    and a name, rename a group by id, set the members of a group by id).
    The workspace is the list of groups that the listing returns.  A
    creation appends the group that [handleTeam] itself assumes it made, a
    rename and a membership update act on the groups with the given id.
    The [users] field of a membership update is a comma separated string;
    [stored] is the list Slack keeps for the ids it was given. *)
Module Slack.

(** [payload.split(',')]. *)
Fixpoint split (payload : string) : list string :=
  match payload with
  | EmptyString => [EmptyString]
  | String c r =>
      if Ascii.eqb c "," then EmptyString :: split r
      else match split r with
           | [] => [String c EmptyString]
           | w :: ws => String c w :: ws
           end
  end.

Definition parseUsers (payload : string) : list string :=
  filter (fun i => i <> "") (split payload).

Fixpoint commaFree (s : string) : bool :=
  match s with
  | EmptyString => true
  | String c r => negb (Ascii.eqb c ",") && commaFree r
  end.

Definition rename (groupId newName : string) (g : UserGroup) : UserGroup :=
  if String.eqb (id g) groupId then
    {| id := id g; date_delete := date_delete g; name := newName;
       handle := handle g; users := users g; is_external := is_external g |}
  else g.

Definition setUsers (groupId : string) (newUsers : list string) (g : UserGroup)
  : UserGroup :=
  if String.eqb (id g) groupId then
    {| id := id g; date_delete := date_delete g; name := name g;
       handle := handle g; users := newUsers; is_external := is_external g |}
  else g.

Definition apply (stored : list string -> list string) (client : Client)
    (workspace : list UserGroup) (c : Call) : list UserGroup :=
  match c with
  | UsergroupsCreate groupHandle groupName =>
      match usergroups_create client groupHandle groupName with
      | Some groupId => workspace ++ [newGroup groupId groupName groupHandle]
      | None => workspace
      end
  | UsergroupsUpdate groupId groupName =>
      rename groupId groupName <$> workspace
  | UsergroupsUsersUpdate groupId payload =>
      setUsers groupId (stored (parseUsers payload)) <$> workspace
  end.

(** The workspace after the requests of a run. *)
Definition after (stored : list string -> list string) (client : Client)
    (cs : list Call) (workspace : list UserGroup) : list UserGroup :=
  foldl (apply stored client) workspace cs.

End Slack.

(** ** Vocabulary of the statements *)

(** What the loading loop guarantees about the pair of maps. *)
Definition indexed (idx : Users) : Prop :=
  (forall k p, cncfByGithub idx !! k = Some p ->
     github p = k /\ slack_id p <> "" /\ is_Some (cncfBySlackID idx !! slack_id p))
  /\ (forall k p, cncfBySlackID idx !! k = Some p -> slack_id p = k /\ k <> "").

(** The Slack id a listed user name resolves to, as the membership loop reads it. *)
Definition resolve (idx : Users) (username : string) : option string :=
  slack_id <$> cncfByGithub idx !! JS.toLowerCase username.

(** The GitHub name reported for an id to add. *)
Definition addedName (idx : Users) (userId : string) : string :=
  default "" (github <$> cncfBySlackID idx !! userId).

(** The identity reported for an id to remove. *)
Definition removedIdentity (idx : Users) (userId : string) : string :=
  match cncfBySlackID idx !! userId with
  | Some cncfUser => "`" +:+ github cncfUser +:+ "`"
  | None => "<@" +:+ userId +:+ ">"
  end.

(** Ids of [wanted] that are not in [present], in the order of [wanted]. *)
Definition missingFrom (present wanted : list string) : list string :=
  filter (fun i => i ∉ present) wanted.

(** Extending a trace. *)
Definition extend (t : Trace) (es : list Event) (cs : list Call) : Trace :=
  {| events := events t ++ es; calls := calls t ++ cs |}.

(** The membership events of a group that is not converged: the eviction
    message first, then the addition message, each only when non-empty. *)
Definition membersEvents (idx : Users) (g : UserGroup) (team : TeamConfig)
  : list Event :=
  let existingUsers := JS.sort (users g) in
  let expectedUserIds := expectedUserIdsOf idx team in
  let usernamesToRemove :=
    removedIdentity idx <$> missingFrom expectedUserIds existingUsers in
  let usernamesToAdd :=
    addedName idx <$> missingFrom existingUsers expectedUserIds in
  (if decide (usernamesToRemove = []) then []
   else [MembersRemoved (englishCommaJoin usernamesToRemove) (handle g)])
  ++ (if decide (usernamesToAdd = []) then []
      else [MembersAdded (englishCommaJoin usernamesToAdd) (handle g)]).

(** The request that sets the membership. *)
Definition usersUpdate (idx : Users) (g : UserGroup) (team : TeamConfig) : Call :=
  UsergroupsUsersUpdate (id g) (JS.join "," (expectedUserIdsOf idx team)).


(** The directory without the records that lack a Slack id. *)
Definition withSlackId (peopleData : list CncfPerson) : list CncfPerson :=
  filter (fun e => slack_id e <> "") peopleData.

(** ** Sample data *)

Module Sample.

Definition person (gh sid : string) : CncfPerson :=
  {| person_name := ""; email := ""; github := gh; slack_id := sid;
     category := "" |}.

Definition group (gid nm h : string) (us : list string) : UserGroup :=
  {| id := gid; date_delete := 0; name := nm; handle := h; users := us;
     is_external := false |}.

(** A Slack workspace that holds [gs] and accepts every request. *)
Definition client (gs : list UserGroup) : Client :=
  {| usergroups_list := fun _ => gs;
     usergroups_create := fun _ _ => Some "S0NEW";
     usergroups_list_again := fun _ => Some gs;
     usergroups_update := fun _ _ => true;
     usergroups_users_update := fun _ _ => true |}.

(** A Slack workspace that holds [gs] and rejects every request. *)
Definition rejecting (gs : list UserGroup) : Client :=
  {| usergroups_list := fun _ => gs;
     usergroups_create := fun _ _ => None;
     usergroups_list_again := fun _ => None;
     usergroups_update := fun _ _ => false;
     usergroups_users_update := fun _ _ => false |}.

Definition team (nm : string) (ms mbs : list string) : TeamConfig :=
  {| team_name := nm; displayName := None; slack := SlackBool true;
     maintainers := ms; members := mbs |}.

End Sample.

(** ** The plugin list of plugins/index.ts *)

Module Plugins.

(** The three plugin objects the module imports. *)
Inductive Plugin :=
| gsuitePlugin
| slackPlugin
| cncfSlackPlugin.

#[global] Instance Plugin_eq_dec : EqDecision Plugin.
Proof. solve_decision. Defined.

(** The name under which each plugin is looked up. *)
Definition pluginName (p : Plugin) : string :=
  match p with
  | gsuitePlugin => "gsuite"
  | slackPlugin => "slack"
  | cncfSlackPlugin => "cncfSlack"
  end.

(** [SHERIFF_PLUGINS.split(',')]; the constant comes from the
    constants module and is a parameter here. *)
Definition enabledPlugins (SHERIFF_PLUGINS : string) : list string :=
  Slack.split SHERIFF_PLUGINS.

(** [if (enabledPlugins.includes(n)) plugins.push(p)]. *)
Definition pushIfEnabled (enabled : list string) (p : Plugin)
    (plugins : list Plugin) : list Plugin :=
  if JS.includes enabled (pluginName p) then plugins ++ [p] else plugins.

(** The exported array after the three conditional pushes. *)
Definition plugins (SHERIFF_PLUGINS : string) : list Plugin :=
  let enabled := enabledPlugins SHERIFF_PLUGINS in
  pushIfEnabled enabled cncfSlackPlugin
    (pushIfEnabled enabled slackPlugin
       (pushIfEnabled enabled gsuitePlugin [])).

End Plugins.

(** ** Further vocabulary *)


(** The handle an event reports. *)
Definition eventHandle (e : Event) : string :=
  match e with
  | GroupCreated h => h
  | GroupRenamed h _ _ => h
  | MembersRemoved _ h => h
  | MembersAdded _ h => h
  end.

(** The place of an event in the report of one team: the creation or
    rename message, then the eviction message, then the addition message. *)
Definition eventRank (e : Event) : nat :=
  match e with
  | GroupCreated _ => 0
  | GroupRenamed _ _ _ => 0
  | MembersRemoved _ _ => 1
  | MembersAdded _ _ => 2
  end.

(** A team with other lists of maintainers and members. *)
Definition withNames (team : TeamConfig) (ms mbs : list string) : TeamConfig :=
  {| team_name := team_name team; displayName := displayName team;
     slack := slack team; maintainers := ms; members := mbs |}.

(** A group whose member array has been sorted in place. *)
Definition sortedInPlace (g : UserGroup) : UserGroup :=
  {| id := id g; date_delete := date_delete g; name := name g;
     handle := handle g; users := JS.sort (users g);
     is_external := is_external g |}.

(** A group with another deletion time. *)
Definition withDateDelete (d : nat) (g : UserGroup) : UserGroup :=
  {| id := id g; date_delete := d; name := name g; handle := handle g;
     users := users g; is_external := is_external g |}.

(** A client whose listing returns [gs]. *)
Definition withListing (client : Client) (gs : list UserGroup) : Client :=
  {| usergroups_list := fun _ => gs;
     usergroups_create := usergroups_create client;
     usergroups_list_again := usergroups_list_again client;
     usergroups_update := usergroups_update client;
     usergroups_users_update := usergroups_users_update client |}.

(** A string in which the character [c] does not occur. *)
Fixpoint lacks (c : ascii) (s : string) : bool :=
  match s with
  | EmptyString => true
  | String c' r => negb (Ascii.eqb c' c) && lacks c r
  end.

(** A directory record with another GitHub field. *)
Definition withGithub (entry : CncfPerson) (gh : string) : CncfPerson :=
  {| person_name := person_name entry; email := email entry; github := gh;
     slack_id := slack_id entry; category := category entry |}.

(** ** Facts about the built-ins *)

Section BuiltIns.

Lemma includes_true (arr : list string) (x : string) :
  JS.includes arr x = true <-> x ∈ arr.
Proof.
  unfold JS.includes. rewrite existsb_exists. split.
  - intros (y & Hy & Heq). apply String.eqb_eq in Heq. subst y.
    by apply list_elem_of_In.
  - intros Hx. exists x. split; [by apply list_elem_of_In | apply String.eqb_refl].
Qed.

Lemma includes_false (arr : list string) (x : string) :
  JS.includes arr x = false <-> x ∉ arr.
Proof.
  rewrite <- includes_true. destruct (JS.includes arr x); split; congruence.
Qed.

Lemma insert_perm (x : string) (arr : list string) :
  JS.insert x arr ≡ₚ x :: arr.
Proof.
  induction arr as [|y r IH]; simpl; [done |].
  destruct (String.leb x y); [done |].
  rewrite IH. apply Permutation_swap.
Qed.

Lemma sort_perm (arr : list string) : JS.sort arr ≡ₚ arr.
Proof.
  induction arr as [|x r IH]; simpl; [done |].
  rewrite insert_perm. by rewrite IH.
Qed.

Lemma elem_of_sort (arr : list string) (x : string) :
  x ∈ JS.sort arr <-> x ∈ arr.
Proof. by rewrite sort_perm. Qed.

Lemma sameJSON_true (a b : list string) : JS.sameJSON a b = true <-> a = b.
Proof. unfold JS.sameJSON. apply bool_decide_eq_true. Qed.

End BuiltIns.

(** ** Facts about the two indexes *)

Section Indexes.

Lemma indexed_noUsers : indexed noUsers.
Proof. split; intros k p H; simpl in H; by rewrite lookup_empty in H. Qed.

Lemma addEntry_skip (idx : Users) (entry : CncfPerson) :
  slack_id entry = "" -> addEntry idx entry = idx.
Proof. intros H. unfold addEntry. by rewrite H. Qed.

Lemma addEntry_keep (idx : Users) (entry : CncfPerson) :
  slack_id entry <> "" ->
  addEntry idx entry =
    {| cncfBySlackID := <[slack_id entry := stripGithub entry]> (cncfBySlackID idx);
       cncfByGithub := <[github (stripGithub entry) := stripGithub entry]> (cncfByGithub idx) |}.
Proof.
  intros H. unfold addEntry.
  apply String.eqb_neq in H. by rewrite H.
Qed.

Lemma indexed_addEntry (idx : Users) (entry : CncfPerson) :
  indexed idx -> indexed (addEntry idx entry).
Proof.
  intros [Hg Hs].
  destruct (decide (slack_id entry = "")) as [He | He].
  { by rewrite addEntry_skip. }
  rewrite addEntry_keep by done. split; simpl; intros k p.
  - rewrite lookup_insert. case_decide as Hk.
    + intros [= <-]. simpl. split; [done |]. split; [done |].
      rewrite lookup_insert_eq. by eexists.
    + intros Hp. destruct (Hg k p Hp) as (H1 & H2 & H3).
      split; [done |]. split; [done |].
      rewrite lookup_insert. case_decide; [by eexists | done].
  - rewrite lookup_insert. case_decide as Hk.
    + intros [= <-]. simpl. by subst k.
    + apply Hs.
Qed.

Lemma indexed_foldl (peopleData : list CncfPerson) (idx : Users) :
  indexed idx -> indexed (foldl addEntry idx peopleData).
Proof.
  revert idx. induction peopleData as [|e r IH]; intros idx H; simpl; [done |].
  apply IH. by apply indexed_addEntry.
Qed.

Lemma indexed_getAllUsers (peopleData : list CncfPerson) :
  indexed (getAllUsers peopleData).
Proof. apply indexed_foldl, indexed_noUsers. Qed.

Lemma foldl_addEntry_filter (peopleData : list CncfPerson) (idx : Users) :
  foldl addEntry idx (filter (fun e => slack_id e <> "") peopleData)
  = foldl addEntry idx peopleData.
Proof.
  revert idx. induction peopleData as [|e r IH]; intros idx; [done |].
  rewrite filter_cons. case_decide as He; simpl.
  - apply IH.
  - assert (slack_id e = "") as Hempty by (destruct (decide (slack_id e = "")); tauto).
    rewrite (addEntry_skip _ _ Hempty). apply IH.
Qed.

Lemma pushExpected_omap (byGithub : gmap string CncfPerson)
    (usernames acc : list string) :
  pushExpected byGithub usernames acc
  = acc ++ omap (fun u => slack_id <$> byGithub !! JS.toLowerCase u) usernames.
Proof.
  revert acc. induction usernames as [|u r IH]; intros acc; simpl.
  - by rewrite app_nil_r.
  - destruct (byGithub !! JS.toLowerCase u) as [p|]; simpl.
    + rewrite IH. by rewrite <- app_assoc.
    + apply IH.
Qed.

Lemma expectedUserIdsOf_perm (idx : Users) (team : TeamConfig) :
  expectedUserIdsOf idx team ≡ₚ omap (resolve idx) (maintainers team ++ members team).
Proof.
  unfold expectedUserIdsOf. rewrite sort_perm, pushExpected_omap. done.
Qed.

Lemma elem_of_expectedUserIdsOf (idx : Users) (team : TeamConfig) (i : string) :
  i ∈ expectedUserIdsOf idx team <->
  exists u, u ∈ maintainers team ++ members team /\ resolve idx u = Some i.
Proof. rewrite expectedUserIdsOf_perm. apply list_elem_of_omap. Qed.

Lemma expected_is_indexed (idx : Users) (team : TeamConfig) (i : string) :
  indexed idx -> i ∈ expectedUserIdsOf idx team ->
  is_Some (cncfBySlackID idx !! i).
Proof.
  intros [Hg _] Hi. apply elem_of_expectedUserIdsOf in Hi as (u & _ & Hu).
  unfold resolve in Hu.
  destruct (cncfByGithub idx !! JS.toLowerCase u) as [p|] eqn:Hp; [|done].
  simpl in Hu. injection Hu as <-. by destruct (Hg _ _ Hp) as (_ & _ & H).
Qed.

End Indexes.

(** ** Facts about the two diff loops *)

Section DiffLoops.

Lemma pushToAdd_done (idx : Users) (existingUsers ids acc : list string) (t : Trace) :
  (forall i, i ∈ ids -> is_Some (cncfBySlackID idx !! i)) ->
  pushToAdd (cncfBySlackID idx) existingUsers ids acc t
  = (t, Done (acc ++ (addedName idx <$> missingFrom existingUsers ids))).
Proof.
  revert acc. induction ids as [|i r IH]; intros acc Hkeys; simpl.
  - unfold missingFrom. simpl. by rewrite app_nil_r.
  - unfold missingFrom. rewrite filter_cons.
    destruct (JS.includes existingUsers i) eqn:Hinc; simpl.
    + apply includes_true in Hinc. rewrite decide_False by tauto.
      apply IH. intros j Hj. apply Hkeys. by right.
    + apply includes_false in Hinc. rewrite decide_True by done.
      destruct (Hkeys i (list_elem_of_here _ _)) as [p Hp]. rewrite Hp.
      rewrite IH by (intros j Hj; apply Hkeys; by right).
      unfold missingFrom. simpl. unfold addedName at 2. rewrite Hp. simpl.
      by rewrite <- app_assoc.
Qed.

Lemma pushToRemove_spec (idx : Users) (expectedUserIds ids acc : list string) :
  pushToRemove (cncfBySlackID idx) expectedUserIds ids acc
  = acc ++ (removedIdentity idx <$> missingFrom expectedUserIds ids).
Proof.
  revert acc. induction ids as [|i r IH]; intros acc; simpl.
  - unfold missingFrom. simpl. by rewrite app_nil_r.
  - unfold missingFrom. rewrite filter_cons.
    destruct (JS.includes expectedUserIds i) eqn:Hinc; simpl.
    + apply includes_true in Hinc. rewrite decide_False by tauto. apply IH.
    + apply includes_false in Hinc. rewrite decide_True by done.
      rewrite IH. unfold missingFrom, removedIdentity. simpl.
      by rewrite <- app_assoc.
Qed.

Lemma missingFrom_nil (present wanted : list string) :
  (forall i, i ∈ wanted -> i ∈ present) -> missingFrom present wanted = [].
Proof.
  intros H. unfold missingFrom. induction wanted as [|i r IH]; [done |].
  rewrite filter_cons. rewrite decide_False.
  - apply IH. intros j Hj. apply H. by right.
  - intros Hn. apply Hn, H. left.
Qed.

End DiffLoops.

(** ** The trace of each step *)

Section Steps.

Lemma length_eqb_nil {A} (l : list A) :
  negb (length l =? 0)%nat = if decide (l = []) then false else true.
Proof. by destruct l. Qed.

Lemma ensureMembers_converged dry client idx g team t :
  JS.sort (users g) = expectedUserIdsOf idx team ->
  ensureMembers dry client idx g team t = (t, Done tt).
Proof.
  intros H. unfold ensureMembers.
  apply sameJSON_true in H. by rewrite H.
Qed.

Lemma ensureMembers_changed dry client idx g team t :
  indexed idx ->
  JS.sort (users g) <> expectedUserIdsOf idx team ->
  ensureMembers dry client idx g team t
  = if dry then (extend t (membersEvents idx g team) [], Done tt)
    else (extend t (membersEvents idx g team) [usersUpdate idx g team],
          if usergroups_users_update client (id g)
               (JS.join "," (expectedUserIdsOf idx team))
          then Done tt else Thrown).
Proof.
  intros Hidx H. unfold ensureMembers.
  destruct (JS.sameJSON _ _) eqn:Hs; [by apply sameJSON_true in Hs |].
  unfold mbind, M_bind, bind.
  rewrite pushToAdd_done
    by (intros i Hi; by apply (expected_is_indexed idx team)).
  rewrite pushToRemove_spec. simpl.
  rewrite !length_eqb_nil. unfold membersEvents, usersUpdate.
  destruct (decide (removedIdentity idx <$> _ = [])) as [-> | Hr];
    destruct (decide (addedName idx <$> _ = [])) as [-> | Ha];
    destruct dry; simpl.
  all: unfold when, ret, addContext, request, accepted, extend; simpl.
  all: rewrite ?app_nil_r, <- ?app_assoc; simpl.
  all: try (by destruct t).
  all: by destruct (usergroups_users_update _ _ _).
Qed.

Lemma ensureName_same dry client g userGroupName t :
  name g = userGroupName ->
  ensureName dry client g userGroupName t = (t, Done tt).
Proof.
  intros H. unfold ensureName. rewrite H, String.eqb_refl. done.
Qed.

Lemma ensureName_differs dry client g userGroupName t :
  name g <> userGroupName ->
  ensureName dry client g userGroupName t
  = if dry
    then (extend t [GroupRenamed (handle g) (name g) userGroupName] [], Done tt)
    else (extend t [GroupRenamed (handle g) (name g) userGroupName]
                   [UsergroupsUpdate (id g) userGroupName],
          if usergroups_update client (id g) userGroupName
          then Done tt else Thrown).
Proof.
  intros H. unfold ensureName. apply String.eqb_neq in H. rewrite H. simpl.
  unfold mbind, M_bind, bind, addContext, when, request, accepted, extend, ret.
  destruct dry; simpl; rewrite ?app_nil_r; [done |].
  by destruct (usergroups_update _ _ _).
Qed.

Lemma ensureGroup_found dry client groups groupName userGroupName g t :
  JS.find (fun g => String.eqb (handle g) groupName) groups = Some g ->
  ensureGroup dry client groups groupName userGroupName t = (t, Done g).
Proof. intros H. unfold ensureGroup. by rewrite H. Qed.

Lemma ensureGroup_dry client groups groupName userGroupName t :
  JS.find (fun g => String.eqb (handle g) groupName) groups = None ->
  ensureGroup true client groups groupName userGroupName t
  = (extend t [GroupCreated groupName] [],
     Done (newGroup "NEW_USER_GROUP_ID" userGroupName groupName)).
Proof.
  intros H. unfold ensureGroup. rewrite H. simpl.
  unfold mbind, M_bind, bind, addContext, ret, extend. simpl.
  by rewrite app_nil_r.
Qed.

Lemma ensureGroup_live client groups groupName userGroupName t :
  JS.find (fun g => String.eqb (handle g) groupName) groups = None ->
  ensureGroup false client groups groupName userGroupName t
  = (extend t [GroupCreated groupName] [UsergroupsCreate groupName userGroupName],
     match usergroups_create client groupName userGroupName with
     | Some usergroupId =>
         match usergroups_list_again client listOptions with
         | Some _ => Done (newGroup usergroupId userGroupName groupName)
         | None => Thrown
         end
     | None => Thrown
     end).
Proof.
  intros H. unfold ensureGroup. rewrite H. simpl.
  unfold mbind, M_bind, bind, addContext, request, await, ret, extend. simpl.
  destruct (usergroups_create _ _ _); [|done].
  by destruct (usergroups_list_again _ _).
Qed.

End Steps.


(** ** Desired membership *)

Section DesiredMembership.

Lemma omap_multiplicity {A} (f : A -> option string) (l : list A) (i : string) :
  length (filter (eq i) (omap f l)) = length (filter (fun x => f x = Some i) l).
Proof.
  induction l as [|x r IH]; [done |].
  rewrite (filter_cons (fun x => f x = Some i)).
  change (omap f (x :: r)) with (match f x with Some y => y :: omap f r | None => omap f r end).
  destruct (f x) as [j|] eqn:Hfx.
  - rewrite filter_cons. destruct (decide (i = j)) as [Heq | Hne].
    + subst j. rewrite decide_True by done. rewrite !length_cons. by rewrite IH.
    + rewrite decide_False by congruence. exact IH.
  - rewrite decide_False by done. exact IH.
Qed.

(** C1, as the code has it: the resolved id list keeps one id per listed
    occurrence.  Each id occurs in the sorted [expectedUserIds] as many
    times as there are names in [maintainers.concat(members)] that
    resolve to it; nothing collapses duplicates. *)
Theorem expectedUserIds_multiplicity (idx : Users) (team : TeamConfig) (i : string) :
  length (filter (eq i) (expectedUserIdsOf idx team))
  = length (filter (fun u => resolve idx u = Some i)
                   (maintainers team ++ members team)).
Proof.
  rewrite <- omap_multiplicity.
  apply Permutation_length. apply filter_Permutation, expectedUserIdsOf_perm.
Qed.

(** C1 fails as stated: a maintainer who is also listed as member
    contributes the id twice, to the comparison and to the payload of the
    membership request, which is then sent for a group that already holds
    exactly that member. *)
Lemma duplicate_username_counts_twice :
  let people := [Sample.person "alice" "U1"] in
  let team := Sample.team "infra" ["alice"] ["alice"] in
  let client := Sample.client [Sample.group "S1" "infra" "infra" ["U1"]] in
  expectedUserIdsOf (getAllUsers people) team = ["U1"; "U1"]
  /\ ~ NoDup (expectedUserIdsOf (getAllUsers people) team)
  /\ run (handleTeam false client people team)
     = ({| events := []; calls := [UsergroupsUsersUpdate "S1" "U1,U1"] |},
        Done tt).
Proof.
  assert (expectedUserIdsOf (getAllUsers [Sample.person "alice" "U1"])
            (Sample.team "infra" ["alice"] ["alice"]) = ["U1"; "U1"]) as E
    by (vm_compute; reflexivity).
  simpl. split; [exact E |]. split.
  - rewrite E. intros H. apply NoDup_cons in H as [H _]. apply H. left.
  - vm_compute. reflexivity.
Qed.

End DesiredMembership.

(** ** User name matching *)

Section Matching.

(** C2, at a directory record with a capital letter: the key of the
    GitHub index keeps the letter case of people.json while the lookup
    key is lower-cased, so neither spelling of the name resolves. *)
Theorem stored_capital_never_matches :
  let people := [Sample.person "https://github.com/Alice" "U1"] in
  let idx := getAllUsers people in
  github <$> cncfByGithub idx !! "Alice" = Some "Alice"
  /\ resolve idx "alice" = None
  /\ resolve idx "Alice" = None
  /\ expectedUserIdsOf idx (Sample.team "infra" [] ["alice"; "Alice"]) = []
  /\ resolve (getAllUsers [Sample.person "https://github.com/alice" "U1"]) "Alice"
     = Some "U1".
Proof. vm_compute. repeat split; reflexivity. Qed.

End Matching.

(** ** englishCommaJoin *)

Section CommaJoin.

(** C3, evaluated: with two or more elements the slice stops one
    element early, so the element before the last never appears. *)
Theorem englishCommaJoin_drops_second_to_last :
  englishCommaJoin [] = ""
  /\ englishCommaJoin ["A"] = "A"
  /\ englishCommaJoin ["A"; "B"] = " and B"
  /\ englishCommaJoin ["A"; "B"; "C"] = "A and C"
  /\ englishCommaJoin ["A"; "B"; "C"; "D"] = "A, B and D".
Proof. vm_compute. repeat split; reflexivity. Qed.

End CommaJoin.

(** ** The directory indexes and the reverse lookup *)

Section ReverseLookup.

Lemma lowerChar_idem (c : ascii) : JS.lowerChar (JS.lowerChar c) = JS.lowerChar c.
Proof. destruct c as [[] [] [] [] [] [] [] []]; vm_compute; reflexivity. Qed.

Lemma toLowerCase_idem (s : string) :
  JS.toLowerCase (JS.toLowerCase s) = JS.toLowerCase s.
Proof. induction s as [|c r IH]; simpl; [done |]. by rewrite lowerChar_idem, IH. Qed.

(** A record is found by a listed name only under a lower-case key. *)
Lemma resolved_key_is_lowercase (idx : Users) (u : string) (p : CncfPerson) :
  indexed idx ->
  cncfByGithub idx !! JS.toLowerCase u = Some p ->
  JS.toLowerCase (github p) = github p.
Proof.
  intros [Hg _] Hp. destruct (Hg _ _ Hp) as (-> & _). apply toLowerCase_idem.
Qed.

(** Where an entry of either index comes from. *)
Lemma foldl_addEntry_origin (l : list CncfPerson) (idx : Users)
    (k : string) (p : CncfPerson) :
  cncfByGithub (foldl addEntry idx l) !! k = Some p
  \/ cncfBySlackID (foldl addEntry idx l) !! k = Some p ->
  (cncfByGithub idx !! k = Some p \/ cncfBySlackID idx !! k = Some p)
  \/ exists e, e ∈ l /\ slack_id e <> "" /\ p = stripGithub e.
Proof.
  revert idx. induction l as [|e r IH]; intros idx H; simpl in H; [by left |].
  destruct (IH (addEntry idx e) H) as [Hhere | (e' & He' & Hs & ->)].
  - destruct (decide (slack_id e = "")) as [He | He].
    + rewrite addEntry_skip in Hhere by done. by left.
    + rewrite addEntry_keep in Hhere by done. simpl in Hhere.
      rewrite !lookup_insert in Hhere.
      destruct Hhere as [Hh | Hh]; case_decide; simplify_eq;
        try (right; exists e; split; [left | done]);
        left; tauto.
  - right. exists e'. split; [by right | done].
Qed.

Lemma index_origin (peopleData : list CncfPerson) (k : string) (p : CncfPerson) :
  cncfByGithub (getAllUsers peopleData) !! k = Some p
  \/ cncfBySlackID (getAllUsers peopleData) !! k = Some p ->
  exists e, e ∈ peopleData /\ slack_id e <> "" /\ p = stripGithub e.
Proof.
  intros H. destruct (foldl_addEntry_origin _ _ _ _ H) as [[H' | H'] | H'];
    [| | done]; simpl in H'; by rewrite lookup_empty in H'.
Qed.

(** C8: every id of the resolved desired list is a key of the Slack-id
    index, so the loop that names the members to add never trips its
    non-null assertion: whatever the current members are, it ends
    normally and yields one GitHub name per id to add. *)
Theorem toAdd_lookup_never_fails (peopleData : list CncfPerson)
    (team : TeamConfig) (existingUsers : list string) (t : Trace) :
  let idx := getAllUsers peopleData in
  Forall (fun i => is_Some (cncfBySlackID idx !! i)) (expectedUserIdsOf idx team)
  /\ pushToAdd (cncfBySlackID idx) existingUsers (expectedUserIdsOf idx team) [] t
     = (t, Done (addedName idx <$>
                   missingFrom existingUsers (expectedUserIdsOf idx team))).
Proof.
  intros idx.
  assert (forall i, i ∈ expectedUserIdsOf idx team ->
                    is_Some (cncfBySlackID idx !! i)) as Hkeys.
  { intros i. apply expected_is_indexed, indexed_getAllUsers. }
  split; [by apply Forall_forall |].
  by rewrite pushToAdd_done.
Qed.

End ReverseLookup.

(** ** Records without a Slack id *)

Section NoSlackId.

(** C9: a record whose [slack_id] is empty reaches neither index, so the
    indexes, the resolved ids and the whole of [handleTeam] are the same
    as for the directory from which those records are deleted; a listed
    name that only such records carry resolves to nothing. *)
Theorem empty_slack_id_not_indexed (peopleData : list CncfPerson) :
  getAllUsers peopleData = getAllUsers (withSlackId peopleData)
  /\ map_Forall (fun _ p => slack_id p <> "") (cncfByGithub (getAllUsers peopleData))
  /\ map_Forall (fun _ p => slack_id p <> "") (cncfBySlackID (getAllUsers peopleData))
  /\ (forall team,
        expectedUserIdsOf (getAllUsers peopleData) team
        = expectedUserIdsOf (getAllUsers (withSlackId peopleData)) team)
  /\ (forall dry client team,
        handleTeam dry client peopleData team
        = handleTeam dry client (withSlackId peopleData) team)
  /\ (forall u,
        Forall (fun e => github (stripGithub e) = JS.toLowerCase u ->
                         slack_id e = "") peopleData ->
        resolve (getAllUsers peopleData) u = None).
Proof.
  assert (getAllUsers peopleData = getAllUsers (withSlackId peopleData)) as E.
  { unfold getAllUsers, withSlackId. by rewrite foldl_addEntry_filter. }
  split; [exact E |].
  destruct (indexed_getAllUsers peopleData) as [Hg Hs].
  split; [intros k p H; by destruct (Hg k p H) as (_ & ? & _) |].
  split; [intros k p H; destruct (Hs k p H) as (-> & ?); done |].
  split; [intros team; by rewrite <- E |].
  split; [intros dry client team; unfold handleTeam; by rewrite <- E |].
  intros u Hall. unfold resolve.
  destruct (cncfByGithub (getAllUsers peopleData) !! JS.toLowerCase u)
    as [p|] eqn:Hp; [|done].
  exfalso.
  destruct (index_origin peopleData _ p (or_introl Hp)) as (e & He & Hne & ->).
  apply Hne. rewrite Forall_forall in Hall. apply (Hall e He).
  by destruct (Hg _ _ Hp) as (? & _).
Qed.

Lemma empty_slack_id_not_indexed_example :
  let ghost := Sample.person "https://github.com/carol" "" in
  let people := [ghost; Sample.person "bob" "U2"] in
  Forall (fun e => github (stripGithub e) = JS.toLowerCase "carol" ->
                   slack_id e = "") people
  /\ resolve (getAllUsers people) "carol" = None.
Proof.
  split.
  - repeat constructor; vm_compute; congruence.
  - apply (empty_slack_id_not_indexed
             [Sample.person "https://github.com/carol" ""; Sample.person "bob" "U2"]).
    repeat constructor; vm_compute; congruence.
Defined.

End NoSlackId.


(** ** Facts about Slack's side *)

Section SlackFacts.

Lemma split_commaFree (x : string) :
  Slack.commaFree x = true -> Slack.split x = [x].
Proof.
  induction x as [|c r IH]; simpl; [done |].
  destruct (Ascii.eqb c ","); simpl; [done |].
  intros H. by rewrite IH.
Qed.

Lemma split_append (x rest : string) :
  Slack.commaFree x = true ->
  Slack.split (x +:+ "," +:+ rest) = x :: Slack.split rest.
Proof.
  induction x as [|c r IH]; simpl; [done |].
  destruct (Ascii.eqb c ","); simpl; [done |].
  intros H. by rewrite IH.
Qed.

Lemma parseUsers_join (ids : list string) :
  Forall (fun i => i <> "" /\ Slack.commaFree i = true) ids ->
  Slack.parseUsers (JS.join "," ids) = ids.
Proof.
  unfold Slack.parseUsers, JS.join.
  induction ids as [|x r IH]; intros H; [done |].
  apply Forall_cons in H as [[Hx Hc] Hr].
  destruct r as [|y r'].
  - simpl. rewrite split_commaFree by done.
    rewrite filter_cons, decide_True by done. done.
  - change (String.concat "," (x :: y :: r'))
      with (x +:+ "," +:+ String.concat "," (y :: r')).
    rewrite split_append by done.
    rewrite filter_cons, decide_True by done. by rewrite IH.
Qed.

Lemma find_fmap_preserving (f : UserGroup -> UserGroup) (p : UserGroup -> bool)
    (gs : list UserGroup) :
  (forall g, p (f g) = p g) ->
  JS.find p (f <$> gs) = f <$> JS.find p gs.
Proof.
  intros Hp. induction gs as [|g r IH]; simpl; [done |].
  rewrite Hp. by destruct (p g).
Qed.

Lemma internal_fmap (f : UserGroup -> UserGroup) (gs : list UserGroup) :
  (forall g, is_external (f g) = is_external g) ->
  filter (fun g => negb (is_external g) = true) (f <$> gs)
  = f <$> filter (fun g => negb (is_external g) = true) gs.
Proof.
  intros Hf. induction gs as [|g r IH]; [done |].
  rewrite fmap_cons, !filter_cons, Hf.
  destruct (decide (negb (is_external g) = true)); [| exact IH].
  rewrite fmap_cons. f_equal. exact IH.
Qed.

Lemma rename_keeps groupId newName g :
  is_external (Slack.rename groupId newName g) = is_external g
  /\ handle (Slack.rename groupId newName g) = handle g
  /\ users (Slack.rename groupId newName g) = users g
  /\ id (Slack.rename groupId newName g) = id g.
Proof. unfold Slack.rename. by destruct (String.eqb _ _). Qed.

Lemma setUsers_keeps groupId newUsers g :
  is_external (Slack.setUsers groupId newUsers g) = is_external g
  /\ handle (Slack.setUsers groupId newUsers g) = handle g
  /\ name (Slack.setUsers groupId newUsers g) = name g
  /\ id (Slack.setUsers groupId newUsers g) = id g.
Proof. unfold Slack.setUsers. by destruct (String.eqb _ _). Qed.

Lemma rename_self newName g : name (Slack.rename (id g) newName g) = newName.
Proof. unfold Slack.rename. by rewrite String.eqb_refl. Qed.

Lemma setUsers_self newUsers g : users (Slack.setUsers (id g) newUsers g) = newUsers.
Proof. unfold Slack.setUsers. by rewrite String.eqb_refl. Qed.

Lemma find_app_none {A} (p : A -> bool) (l : list A) (x : A) :
  JS.find p l = None -> p x = true -> JS.find p (l ++ [x]) = Some x.
Proof.
  intros Hl Hx. induction l as [|y r IH]; simpl in *; [by rewrite Hx |].
  destruct (p y); [done | by apply IH].
Qed.

End SlackFacts.

(** ** The whole of handleTeam *)

Section Whole.

Lemma handleTeam_skipped dry client peopleData team t :
  slackTruthy (slack team) = false ->
  handleTeam dry client peopleData team t = (t, Done tt).
Proof. intros H. unfold handleTeam. by rewrite H. Qed.

Lemma handleTeam_found dry client peopleData team g t :
  slackTruthy (slack team) = true ->
  JS.find (fun g => String.eqb (handle g) (groupNameOf team))
          (getAllGroups (usergroups_list client)) = Some g ->
  handleTeam dry client peopleData team t
  = match ensureName dry client g (userGroupNameOf team) t with
    | (t', Done _) => ensureMembers dry client (getAllUsers peopleData) g team t'
    | (t', Thrown) => (t', Thrown)
    end.
Proof.
  intros Hs Hf. unfold handleTeam. rewrite Hs. simpl.
  unfold mbind, M_bind, bind at 1.
  rewrite (ensureGroup_found _ _ _ _ _ g) by done.
  unfold bind. by destruct (ensureName _ _ _ _ _) as [t' []].
Qed.

Lemma handleTeam_absent_dry client peopleData team t :
  slackTruthy (slack team) = true ->
  JS.find (fun g => String.eqb (handle g) (groupNameOf team))
          (getAllGroups (usergroups_list client)) = None ->
  handleTeam true client peopleData team t
  = ensureMembers true client (getAllUsers peopleData)
      (newGroup "NEW_USER_GROUP_ID" (userGroupNameOf team) (groupNameOf team))
      team (extend t [GroupCreated (groupNameOf team)] []).
Proof.
  intros Hs Hf. unfold handleTeam. rewrite Hs. simpl.
  unfold mbind, M_bind, bind at 1.
  rewrite ensureGroup_dry by done.
  unfold bind. by rewrite ensureName_same.
Qed.

Lemma handleTeam_absent_live client peopleData team t :
  slackTruthy (slack team) = true ->
  JS.find (fun g => String.eqb (handle g) (groupNameOf team))
          (getAllGroups (usergroups_list client)) = None ->
  handleTeam false client peopleData team t
  = let t' := extend t [GroupCreated (groupNameOf team)]
                [UsergroupsCreate (groupNameOf team) (userGroupNameOf team)] in
    match usergroups_create client (groupNameOf team) (userGroupNameOf team),
          usergroups_list_again client listOptions with
    | Some usergroupId, Some _ =>
        ensureMembers false client (getAllUsers peopleData)
          (newGroup usergroupId (userGroupNameOf team) (groupNameOf team))
          team t'
    | _, _ => (t', Thrown)
    end.
Proof.
  intros Hs Hf. unfold handleTeam. rewrite Hs. simpl.
  unfold mbind, M_bind, bind at 1.
  rewrite ensureGroup_live by done.
  destruct (usergroups_create _ _ _) as [i|]; [|done].
  destruct (usergroups_list_again _ _); [|done].
  unfold bind. by rewrite ensureName_same.
Qed.

End Whole.

(** Case analysis on the branches [handleTeam] can take: the guard, the
    lookup by handle, the name test, the membership test and the answers
    of the client. *)
Ltac branch_name dry client g team :=
  destruct (decide (name g = userGroupNameOf team)) as [?Hname | ?Hname];
  [ rewrite ?(ensureName_same _ _ g (userGroupNameOf team)) by assumption
  | rewrite ?(ensureName_differs _ _ g (userGroupNameOf team)) by assumption ].

Ltac branch_members idx g team :=
  destruct (decide (JS.sort (users g) = expectedUserIdsOf idx team))
    as [?Hconv | ?Hconv];
  [ rewrite ?(ensureMembers_converged _ _ idx g team) by assumption
  | rewrite ?(ensureMembers_changed _ _ idx g team)
      by (try apply indexed_getAllUsers; assumption) ].

(** ** Dry run and live run *)

Section DryRun.


(** A message of one kind is not in a list of messages of other kinds. *)
Ltac not_listed H :=
  repeat (apply elem_of_cons in H as [H | H]; [discriminate H |]);
  by apply elem_of_nil in H.







(** A live run whose rename is rejected stops after the rename message. *)
Example rejected_request_cuts_the_run :
  run (handleTeam false
         (Sample.rejecting [Sample.group "S1" "Infra" "infra" ["U1"; "U4"]])
         [Sample.person "alice" "U1"; Sample.person "https://github.com/bob" "U2"]
         (Sample.team "infra" ["alice"] ["bob"]))
  = ({| events := [GroupRenamed "infra" "Infra" "infra"];
        calls := [UsergroupsUpdate "S1" "infra"] |}, Thrown).
Proof. vm_compute. reflexivity. Qed.

End DryRun.

(** ** Converged teams *)

Section Converged.

Lemma converged_noop dry client peopleData team g :
  JS.find (fun g => String.eqb (handle g) (groupNameOf team))
          (getAllGroups (usergroups_list client)) = Some g ->
  name g = userGroupNameOf team ->
  JS.sort (users g) = expectedUserIdsOf (getAllUsers peopleData) team ->
  run (handleTeam dry client peopleData team)
  = ({| events := []; calls := [] |}, Done tt).
Proof.
  intros Hf Hn Hu. unfold run.
  destruct (slackTruthy (slack team)) eqn:Hs.
  - rewrite (handleTeam_found _ _ _ _ g) by done.
    rewrite ensureName_same by done. by rewrite ensureMembers_converged.
  - by rewrite handleTeam_skipped.
Qed.

(** A group with the right name and the right set of members draws no
    event, whatever the order and the repetitions of its member list. *)
Lemma same_set_quiet dry client peopleData team g :
  JS.find (fun g => String.eqb (handle g) (groupNameOf team))
          (getAllGroups (usergroups_list client)) = Some g ->
  name g = userGroupNameOf team ->
  (forall i, i ∈ users g <-> i ∈ expectedUserIdsOf (getAllUsers peopleData) team) ->
  events (run (handleTeam dry client peopleData team)).1 = [].
Proof.
  intros Hf Hn Hu. unfold run.
  destruct (slackTruthy (slack team)) eqn:Hs.
  2:{ by rewrite handleTeam_skipped. }
  rewrite (handleTeam_found _ _ _ _ g) by done.
  rewrite ensureName_same by done.
  branch_members (getAllUsers peopleData) g team; [done |].
  assert (membersEvents (getAllUsers peopleData) g team = []) as ->.
  { unfold membersEvents.
    rewrite (missingFrom_nil (expectedUserIdsOf _ team) (JS.sort (users g)))
      by (intros i Hi; apply Hu; by apply elem_of_sort).
    rewrite (missingFrom_nil (JS.sort (users g)) (expectedUserIdsOf _ team))
      by (intros i Hi; apply elem_of_sort; by apply Hu).
    done. }
  by destruct dry.
Qed.

Lemma expected_parse_back peopleData team :
  Forall (fun e => Slack.commaFree (slack_id e) = true) peopleData ->
  Slack.parseUsers (JS.join "," (expectedUserIdsOf (getAllUsers peopleData) team))
  = expectedUserIdsOf (getAllUsers peopleData) team.
Proof.
  intros Hc. apply parseUsers_join, Forall_forall. intros i Hi.
  destruct (expected_is_indexed _ _ _ (indexed_getAllUsers peopleData) Hi) as [p Hp].
  destruct (indexed_getAllUsers peopleData) as [_ Hs].
  destruct (Hs _ _ Hp) as [Hid Hne]. split; [done |].
  destruct (index_origin peopleData _ _ (or_intror Hp)) as (e & He & _ & ->).
  rewrite Forall_forall in Hc. specialize (Hc e He). simpl in Hid.
  by rewrite <- Hid.
Qed.

Variable stored : list string -> list string.
Hypothesis stored_same_set : forall l i, i ∈ stored l <-> i ∈ l.

Lemma second_run_quiet client client2 dry2 peopleData team :
  Forall (fun e => Slack.commaFree (slack_id e) = true) peopleData ->
  (run (handleTeam false client peopleData team)).2 = Done tt ->
  usergroups_list client2 listOptions
  = Slack.after stored client
      (calls (run (handleTeam false client peopleData team)).1)
      (usergroups_list client listOptions) ->
  events (run (handleTeam dry2 client2 peopleData team)).1 = [].
Proof.
  intros Hc. unfold run at 1 2.
  destruct (slackTruthy (slack team)) eqn:Hs.
  2:{ intros _ _. unfold run. by rewrite handleTeam_skipped. }
  pose proof (expected_parse_back peopleData team Hc) as Hback.
  destruct (JS.find (fun g => String.eqb (handle g) (groupNameOf team))
              (getAllGroups (usergroups_list client)))
    as [g|] eqn:Hf.
  - rewrite (handleTeam_found _ _ _ _ g) by done.
    branch_name false client g team;
      [| destruct (usergroups_update client _ _); [| by branch_members (getAllUsers peopleData) g team]];
      (branch_members (getAllUsers peopleData) g team;
       [| destruct (usergroups_users_update client _ _); [| done]]);
      simpl; unfold usersUpdate; rewrite ?Hback; intros _ Hws.
    + apply (same_set_quiet _ _ _ _ g); [| done |].
      * unfold getAllGroups. by rewrite Hws.
      * intros i. by rewrite <- Hconv, elem_of_sort.
    + apply (same_set_quiet _ _ _ _
               (Slack.setUsers (id g) (stored (expectedUserIdsOf (getAllUsers peopleData) team)) g)).
      * unfold getAllGroups in *. rewrite Hws.
        rewrite internal_fmap by (intros; apply setUsers_keeps).
        rewrite find_fmap_preserving, Hf; [done |].
        intros g0. by destruct (setUsers_keeps (id g) (stored (expectedUserIdsOf (getAllUsers peopleData) team)) g0) as (_ & -> & _).
      * by destruct (setUsers_keeps (id g) (stored (expectedUserIdsOf (getAllUsers peopleData) team)) g) as (_ & _ & -> & _).
      * intros i. rewrite setUsers_self. apply stored_same_set.
    + apply (same_set_quiet _ _ _ _ (Slack.rename (id g) (userGroupNameOf team) g)).
      * unfold getAllGroups in *. rewrite Hws.
        rewrite internal_fmap by (intros; apply rename_keeps).
        rewrite find_fmap_preserving, Hf; [done |].
        intros g0. by destruct (rename_keeps (id g) (userGroupNameOf team) g0) as (_ & -> & _).
      * apply rename_self.
      * intros i. destruct (rename_keeps (id g) (userGroupNameOf team) g) as (_ & _ & -> & _).
        by rewrite <- Hconv, elem_of_sort.
    + set (us := stored (expectedUserIdsOf (getAllUsers peopleData) team)) in *.
      apply (same_set_quiet _ _ _ _
               (Slack.setUsers (id g) us (Slack.rename (id g) (userGroupNameOf team) g))).
      * unfold getAllGroups in *. rewrite Hws.
        rewrite !internal_fmap
          by (intros; first [apply setUsers_keeps | apply rename_keeps]).
        rewrite !find_fmap_preserving, Hf; [done | |].
        -- intros g0. by destruct (rename_keeps (id g) (userGroupNameOf team) g0) as (_ & -> & _).
        -- intros g0. by destruct (setUsers_keeps (id g) us g0) as (_ & -> & _).
      * destruct (setUsers_keeps (id g) us (Slack.rename (id g) (userGroupNameOf team) g)) as (_ & _ & -> & _).
        apply rename_self.
      * intros i.
        destruct (rename_keeps (id g) (userGroupNameOf team) g) as (_ & _ & _ & Hid).
        rewrite <- Hid at 1. rewrite setUsers_self. apply stored_same_set.
  - rewrite handleTeam_absent_live by done. simpl.
    destruct (usergroups_create client _ _) as [newId|] eqn:Hcreate; [| done].
    destruct (usergroups_list_again client _); [| done].
    set (made := newGroup newId (userGroupNameOf team) (groupNameOf team)).
    assert (String.eqb (handle made) (groupNameOf team) = true) as Hmade
      by (simpl; apply String.eqb_refl).
    branch_members (getAllUsers peopleData) made team;
      [| destruct (usergroups_users_update client _ _); [| done]];
      simpl; unfold usersUpdate; rewrite ?Hback, Hcreate; intros _ Hws.
    + apply (same_set_quiet _ _ _ _ made); [| done |].
      * unfold getAllGroups in *. rewrite Hws, filter_app.
        change (filter _ [made]) with [made].
        by apply find_app_none.
      * intros i. simpl in Hconv. rewrite <- Hconv. done.
    + set (us := stored (expectedUserIdsOf (getAllUsers peopleData) team)) in *.
      apply (same_set_quiet _ _ _ _ (Slack.setUsers newId us made)).
      * unfold getAllGroups in *. rewrite Hws.
        rewrite internal_fmap by (intros; apply setUsers_keeps).
        rewrite find_fmap_preserving.
        2:{ intros g0. by destruct (setUsers_keeps newId us g0) as (_ & -> & _). }
        rewrite filter_app. change (filter _ [made]) with [made].
        by rewrite (find_app_none _ _ made).
      * by destruct (setUsers_keeps newId us made) as (_ & _ & -> & _).
      * intros i. change newId with (id made) at 1.
        rewrite setUsers_self. apply stored_same_set.
Qed.

(** C4: when the group matched by handle already has the desired name
    and its sorted members are the sorted resolved ids, [handleTeam]
    emits nothing and issues no request, in either mode.  Consequently,
    once a live run has ended normally and the workspace holds what that
    run wrote, the next run emits no event. *)
Theorem converged_team_emits_nothing (client : Client)
    (peopleData : list CncfPerson) (team : TeamConfig) :
  (forall dry g,
      JS.find (fun g => String.eqb (handle g) (groupNameOf team))
              (getAllGroups (usergroups_list client)) = Some g ->
      name g = userGroupNameOf team ->
      JS.sort (users g) = expectedUserIdsOf (getAllUsers peopleData) team ->
      run (handleTeam dry client peopleData team)
      = ({| events := []; calls := [] |}, Done tt))
  /\ (forall dry2 client2,
        Forall (fun e => Slack.commaFree (slack_id e) = true) peopleData ->
        (run (handleTeam false client peopleData team)).2 = Done tt ->
        usergroups_list client2 listOptions
        = Slack.after stored client
            (calls (run (handleTeam false client peopleData team)).1)
            (usergroups_list client listOptions) ->
        events (run (handleTeam dry2 client2 peopleData team)).1 = []).
Proof.
  split.
  - intros dry g. apply converged_noop.
  - intros dry2 client2. apply second_run_quiet.
Qed.

End Converged.

Lemma converged_team_emits_nothing_sample :
  let people := [Sample.person "alice" "U1"; Sample.person "https://github.com/bob" "U2"] in
  let team := Sample.team "infra" ["alice"] ["bob"] in
  let settled := Sample.client [Sample.group "S1" "infra" "infra" ["U2"; "U1"]] in
  let stale := Sample.client [Sample.group "S1" "Infra" "infra" ["U1"; "U4"]] in
  let next :=
    Sample.client
      (Slack.after (fun l => l) stale
         (calls (run (handleTeam false stale people team)).1)
         [Sample.group "S1" "Infra" "infra" ["U1"; "U4"]]) in
  run (handleTeam false settled people team)
  = ({| events := []; calls := [] |}, Done tt)
  /\ calls (run (handleTeam false stale people team)).1
     = [UsergroupsUpdate "S1" "infra"; UsergroupsUsersUpdate "S1" "U1,U2"]
  /\ events (run (handleTeam false next people team)).1 = [].
Proof.
  split; [| split; [vm_compute; reflexivity |]].
  - apply (converged_team_emits_nothing (fun l => l) (fun l i => iff_refl _)
             (Sample.client [Sample.group "S1" "infra" "infra" ["U2"; "U1"]])
             [Sample.person "alice" "U1"; Sample.person "https://github.com/bob" "U2"]
             (Sample.team "infra" ["alice"] ["bob"]))
      with (g := Sample.group "S1" "infra" "infra" ["U2"; "U1"]);
      vm_compute; reflexivity.
  - apply (converged_team_emits_nothing (fun l => l) (fun l i => iff_refl _)
             (Sample.client [Sample.group "S1" "Infra" "infra" ["U1"; "U4"]])
             [Sample.person "alice" "U1"; Sample.person "https://github.com/bob" "U2"]
             (Sample.team "infra" ["alice"] ["bob"])).
    + repeat constructor.
    + vm_compute; reflexivity.
    + reflexivity.
Defined.

(** ** The creation path *)

Section Creation.

Lemma membersEvents_newGroup idx groupId userGroupName groupName team :
  membersEvents idx (newGroup groupId userGroupName groupName) team = []
  \/ exists who,
      membersEvents idx (newGroup groupId userGroupName groupName) team
      = [MembersAdded who groupName].
Proof.
  unfold membersEvents. simpl.
  destruct (decide (addedName idx <$> _ = [])); [by left | right; by eexists].
Qed.

(** C6: for a team with a handle that no listed group carries, the
    events are one creation message followed by at most one addition
    message and nothing else (in particular no rename message); the live
    run opens with the creation request, which carries the desired
    display name: [team.displayName] when it is a non-empty string, else
    [team.name]. *)
Theorem creation_path (dry : bool) (client : Client)
    (peopleData : list CncfPerson) (team : TeamConfig) :
  slackTruthy (slack team) = true ->
  JS.find (fun g => String.eqb (handle g) (groupNameOf team))
          (getAllGroups (usergroups_list client)) = None ->
  let outcome := (run (handleTeam dry client peopleData team)).1 in
  (events outcome = [GroupCreated (groupNameOf team)]
   \/ exists who, events outcome
                  = [GroupCreated (groupNameOf team);
                     MembersAdded who (groupNameOf team)])
  /\ (if dry then calls outcome = []
      else exists more,
          calls outcome
          = UsergroupsCreate (groupNameOf team) (userGroupNameOf team) :: more)
  /\ groupNameOf team
     = match slack team with SlackHandle h => h | _ => team_name team end
  /\ userGroupNameOf team
     = match displayName team with
       | Some d => if decide (d = "") then team_name team else d
       | None => team_name team
       end.
Proof.
  intros Hs Hf. unfold run.
  assert (userGroupNameOf team
          = match displayName team with
            | Some d => if decide (d = "") then team_name team else d
            | None => team_name team
            end) as Hname.
  { unfold userGroupNameOf. destruct (displayName team) as [d|]; [|done].
    destruct (String.eqb_spec d ""); by case_decide. }
  destruct dry.
  - rewrite handleTeam_absent_dry by done.
    set (made := newGroup _ _ _).
    branch_members (getAllUsers peopleData) made team; simpl.
    + repeat split; auto.
    + rewrite ?app_nil_r. repeat split; auto.
      destruct (membersEvents_newGroup (getAllUsers peopleData)
                  "NEW_USER_GROUP_ID" (userGroupNameOf team) (groupNameOf team) team)
        as [E | [who E]]; fold made in E; rewrite E; [by left | right; by exists who].
  - rewrite handleTeam_absent_live by done. simpl.
    destruct (usergroups_create client _ _) as [newId|];
      [destruct (usergroups_list_again client _) |]; simpl;
      try (repeat split; eauto; fail).
    set (made := newGroup _ _ _).
    branch_members (getAllUsers peopleData) made team; simpl.
    + repeat split; eauto.
    + repeat split; eauto.
      destruct (membersEvents_newGroup (getAllUsers peopleData)
                  newId (userGroupNameOf team) (groupNameOf team) team)
        as [E | [who E]]; fold made in E; rewrite E; [by left | right; by exists who].
Qed.

Lemma creation_path_sample :
  let client := Sample.client [Sample.group "S1" "Web" "web" []] in
  let people := [Sample.person "alice" "U1"] in
  let team := {| team_name := "infra"; displayName := Some "Infrastructure";
                 slack := SlackBool true; maintainers := ["alice"];
                 members := [] |} in
  events (run (handleTeam false client people team)).1
  = [GroupCreated "infra"; MembersAdded "alice" "infra"]
  /\ exists more,
      calls (run (handleTeam false client people team)).1
      = UsergroupsCreate "infra" "Infrastructure" :: more.
Proof.
  split; [vm_compute; reflexivity |].
  apply (creation_path false
           (Sample.client [Sample.group "S1" "Web" "web" []])
           [Sample.person "alice" "U1"]
           {| team_name := "infra"; displayName := Some "Infrastructure";
              slack := SlackBool true; maintainers := ["alice"];
              members := [] |}); vm_compute; reflexivity.
Defined.

End Creation.

(** ** The diff *)

Section Diff.

Lemma elem_of_missingFrom (present wanted : list string) (i : string) :
  i ∈ missingFrom present wanted <-> i ∈ wanted /\ i ∉ present.
Proof. unfold missingFrom. rewrite list_elem_of_filter. tauto. Qed.

(** C7: the names to add are read off the desired ids that the group
    lacks, the identities to remove off the current ids that are not
    desired, both in sorted order; an id to remove is reported as the
    back-quoted GitHub name when the Slack-id index knows it and as the
    mention [<@id>] otherwise; a group that is not converged emits the
    eviction message and the addition message built from these two
    lists.  For desired ids 1, 2, 3 and current ids 2, 3, 4 the events
    are one eviction of id 4 and one addition of the owner of id 1. *)
Theorem diff_is_exact (dry : bool) (client : Client)
    (peopleData : list CncfPerson) (team : TeamConfig) (g : UserGroup)
    (t : Trace) :
  let idx := getAllUsers peopleData in
  let existingUsers := JS.sort (users g) in
  let expectedUserIds := expectedUserIdsOf idx team in
  let toAdd := missingFrom existingUsers expectedUserIds in
  let toRemove := missingFrom expectedUserIds existingUsers in
  (forall i, i ∈ toAdd <-> i ∈ expectedUserIds /\ i ∉ users g)
  /\ (forall i, i ∈ toRemove <-> i ∈ users g /\ i ∉ expectedUserIds)
  /\ pushToAdd (cncfBySlackID idx) existingUsers expectedUserIds [] t
     = (t, Done (addedName idx <$> toAdd))
  /\ Forall (fun i => github <$> cncfBySlackID idx !! i = Some (addedName idx i)) toAdd
  /\ pushToRemove (cncfBySlackID idx) expectedUserIds existingUsers []
     = removedIdentity idx <$> toRemove
  /\ Forall (fun i =>
               removedIdentity idx i
               = match cncfBySlackID idx !! i with
                 | Some cncfUser => "`" +:+ github cncfUser +:+ "`"
                 | None => "<@" +:+ i +:+ ">"
                 end) toRemove
  /\ (existingUsers <> expectedUserIds ->
      events (ensureMembers dry client idx g team t).1
      = events t
        ++ (if decide (toRemove = []) then []
            else [MembersRemoved (englishCommaJoin (removedIdentity idx <$> toRemove))
                                 (handle g)])
        ++ (if decide (toAdd = []) then []
            else [MembersAdded (englishCommaJoin (addedName idx <$> toAdd))
                               (handle g)])).
Proof.
  intros idx existingUsers expectedUserIds toAdd toRemove.
  assert (forall i, i ∈ expectedUserIds -> is_Some (cncfBySlackID idx !! i)) as Hkeys.
  { intros i. apply expected_is_indexed, indexed_getAllUsers. }
  split; [| split; [| split; [| split; [| split; [| split]]]]].
  - intros i. unfold toAdd. rewrite elem_of_missingFrom.
    unfold existingUsers. by rewrite elem_of_sort.
  - intros i. unfold toRemove. rewrite elem_of_missingFrom.
    unfold existingUsers. by rewrite elem_of_sort.
  - by rewrite pushToAdd_done.
  - apply Forall_forall. intros i Hi.
    apply elem_of_missingFrom in Hi as [Hi _].
    destruct (Hkeys i Hi) as [p Hp]. unfold addedName. by rewrite Hp.
  - by rewrite pushToRemove_spec.
  - apply Forall_forall. by intros i _.
  - intros Hne. rewrite ensureMembers_changed
      by (try apply indexed_getAllUsers; exact Hne).
    assert (membersEvents idx g team
            = (if decide (toRemove = []) then []
               else [MembersRemoved (englishCommaJoin (removedIdentity idx <$> toRemove))
                                    (handle g)])
              ++ (if decide (toAdd = []) then []
                  else [MembersAdded (englishCommaJoin (addedName idx <$> toAdd))
                                     (handle g)])) as ->.
    { unfold membersEvents. fold idx existingUsers expectedUserIds toAdd toRemove.
      destruct toRemove, toAdd; done. }
    by destruct dry.
Qed.

Lemma diff_is_exact_sample :
  let people := [Sample.person "one" "1"; Sample.person "two" "2";
                 Sample.person "three" "3"] in
  let known := people ++ [Sample.person "four" "4"] in
  let team := Sample.team "infra" ["one"] ["two"; "three"] in
  let g := Sample.group "S1" "infra" "infra" ["2"; "3"; "4"] in
  let t := {| events := []; calls := [] |} in
  JS.sort (users g) <> expectedUserIdsOf (getAllUsers people) team
  /\ expectedUserIdsOf (getAllUsers people) team = ["1"; "2"; "3"]
  /\ missingFrom (JS.sort (users g)) (expectedUserIdsOf (getAllUsers people) team) = ["1"]
  /\ missingFrom (expectedUserIdsOf (getAllUsers people) team) (JS.sort (users g)) = ["4"]
  /\ events (ensureMembers false (Sample.client [g]) (getAllUsers people) g team t).1
     = [MembersRemoved "<@4>" "infra"; MembersAdded "one" "infra"]
  /\ events (ensureMembers false (Sample.client [g]) (getAllUsers known) g team t).1
     = [MembersRemoved "`four`" "infra"; MembersAdded "one" "infra"]
  /\ run (handleTeam false (Sample.client [g]) people team)
     = ({| events := [MembersRemoved "<@4>" "infra"; MembersAdded "one" "infra"];
           calls := [UsergroupsUsersUpdate "S1" "1,2,3"] |}, Done tt).
Proof.
  intros people known team g t.
  assert (JS.sort (users g) <> expectedUserIdsOf (getAllUsers people) team) as Hne
    by (vm_compute; congruence).
  assert (JS.sort (users g) <> expectedUserIdsOf (getAllUsers known) team) as Hne'
    by (vm_compute; congruence).
  split; [exact Hne |].
  split; [vm_compute; reflexivity |].
  split; [vm_compute; reflexivity |].
  split; [vm_compute; reflexivity |].
  split; [| split; [| vm_compute; reflexivity]].
  - destruct (diff_is_exact false (Sample.client [g]) people team g t)
      as (_ & _ & _ & _ & _ & _ & Hev).
    rewrite (Hev Hne). vm_compute. reflexivity.
  - destruct (diff_is_exact false (Sample.client [g]) known team g t)
      as (_ & _ & _ & _ & _ & _ & Hev).
    rewrite (Hev Hne'). vm_compute. reflexivity.
Defined.

End Diff.

(** ** The group listing *)

Section Listing.

(** C10: the listing asks for disabled groups and for the members; what
    [getAllGroups] returns is the listing without the external groups,
    whatever their [date_delete]; a deleted group that is the first
    internal one with the team's handle is not created again, and the
    rename and the membership request of a live run go to its id. *)
Theorem deleted_groups_stay_candidates (client : Client)
    (peopleData : list CncfPerson) (team : TeamConfig) (g : UserGroup) :
  include_disabled listOptions = true
  /\ include_users listOptions = true
  /\ Forall (fun g' => is_external g' = false) (getAllGroups (usergroups_list client))
  /\ (forall g', g' ∈ getAllGroups (usergroups_list client)
                 <-> g' ∈ usergroups_list client listOptions
                     /\ is_external g' = false)
  /\ (date_delete g <> 0%nat ->
      slackTruthy (slack team) = true ->
      JS.find (fun g => String.eqb (handle g) (groupNameOf team))
              (getAllGroups (usergroups_list client)) = Some g ->
      name g <> userGroupNameOf team ->
      JS.sort (users g) <> expectedUserIdsOf (getAllUsers peopleData) team ->
      usergroups_update client (id g) (userGroupNameOf team) = true ->
      let outcome := (run (handleTeam false client peopleData team)).1 in
      calls outcome
      = [UsergroupsUpdate (id g) (userGroupNameOf team);
         UsergroupsUsersUpdate (id g)
           (JS.join "," (expectedUserIdsOf (getAllUsers peopleData) team))]
      /\ events outcome
         = GroupRenamed (handle g) (name g) (userGroupNameOf team)
           :: membersEvents (getAllUsers peopleData) g team).
Proof.
  assert (forall g', g' ∈ getAllGroups (usergroups_list client)
                 <-> g' ∈ usergroups_list client listOptions
                     /\ is_external g' = false) as Hmem.
  { intros g'. unfold getAllGroups. rewrite list_elem_of_filter.
    destruct (is_external g'); simpl; intuition congruence. }
  split; [done |]. split; [done |].
  split; [apply Forall_forall; intros g' Hg'; by apply Hmem in Hg' as [_ ?] |].
  split; [exact Hmem |].
  intros _ Hs Hf Hn Hu Hok. unfold run.
  rewrite (handleTeam_found _ _ _ _ g) by done.
  rewrite ensureName_differs by done. rewrite Hok.
  rewrite ensureMembers_changed by (try apply indexed_getAllUsers; done).
  simpl. done.
Qed.

Lemma deleted_groups_stay_candidates_sample :
  let deleted :=
    {| id := "S1"; date_delete := 1; name := "Old"; handle := "infra";
       users := ["U9"]; is_external := false |} in
  let foreign :=
    {| id := "S0"; date_delete := 0; name := "Other"; handle := "infra";
       users := []; is_external := true |} in
  let client := Sample.client [foreign; deleted] in
  let people := [Sample.person "alice" "U1"] in
  let team := Sample.team "infra" ["alice"] [] in
  getAllGroups (usergroups_list client) = [deleted]
  /\ calls (run (handleTeam false client people team)).1
     = [UsergroupsUpdate "S1" "infra"; UsergroupsUsersUpdate "S1" "U1"]
  /\ events (run (handleTeam false client people team)).1
     = [GroupRenamed "infra" "Old" "infra";
        MembersRemoved "<@U9>" "infra"; MembersAdded "alice" "infra"].
Proof.
  intros deleted foreign client people team.
  split; [vm_compute; reflexivity |].
  destruct (deleted_groups_stay_candidates client people team deleted)
    as (_ & _ & _ & _ & H).
  destruct H as [Hc He]; try (vm_compute; congruence).
  split; [rewrite Hc | rewrite He]; vm_compute; reflexivity.
Defined.

End Listing.

(** ** The sort and the convergence test *)

Section SortFacts.

Lemma insert_sorted (x : string) (arr : list string) :
  Sorted String.le arr -> Sorted String.le (JS.insert x arr).
Proof.
  induction arr as [|y r IH]; intros Hs; simpl.
  - by repeat constructor.
  - destruct (String.leb x y) eqn:Hxy.
    + constructor; [done |]. constructor. unfold String.le. by rewrite Hxy.
    + apply Sorted_inv in Hs as [Hr Hhd]. constructor; [by apply IH |].
      assert (String.le y x) as Hyx.
      { destruct (String.leb_total x y) as [H | H]; [congruence |].
        unfold String.le. by rewrite H. }
      destruct r as [|z r']; simpl.
      * by constructor.
      * destruct (String.leb x z); constructor; [done |].
        by apply HdRel_inv in Hhd.
Qed.

Lemma sort_sorted (arr : list string) : Sorted String.le (JS.sort arr).
Proof.
  induction arr as [|x r IH]; simpl; [constructor | by apply insert_sorted].
Qed.

Lemma sort_unique (l1 l2 : list string) :
  l1 ≡ₚ l2 -> JS.sort l1 = JS.sort l2.
Proof.
  intros H. apply (Sorted_unique String.le); try apply sort_sorted.
  by rewrite !sort_perm.
Qed.

Lemma sort_idem (arr : list string) : JS.sort (JS.sort arr) = JS.sort arr.
Proof. apply sort_unique, sort_perm. Qed.

Lemma sort_eq_perm (l1 l2 : list string) :
  JS.sort l1 = JS.sort l2 <-> l1 ≡ₚ l2.
Proof.
  split; [| apply sort_unique].
  intros H. rewrite <- (sort_perm l1), <- (sort_perm l2). by rewrite H.
Qed.

Lemma find_handle_some (groups : list UserGroup) (h : string) (g : UserGroup) :
  JS.find (fun g => String.eqb (handle g) h) groups = Some g ->
  g ∈ groups /\ handle g = h.
Proof.
  induction groups as [|y r IH]; simpl; [done |].
  destruct (String.eqb_spec (handle y) h) as [E | E].
  - intros [= ->]. split; [left | done].
  - intros H. destruct (IH H) as [Hin Hh]. split; [by right | done].
Qed.

End SortFacts.

(** ** What the team's name lists contribute *)

Section TeamNames.

Lemma ensureMembers_ext dry client idx g team team' :
  expectedUserIdsOf idx team = expectedUserIdsOf idx team' ->
  ensureMembers dry client idx g team = ensureMembers dry client idx g team'.
Proof. intros E. unfold ensureMembers. by rewrite E. Qed.

Lemma handleTeam_ext dry client peopleData team team' :
  team_name team = team_name team' ->
  displayName team = displayName team' ->
  slack team = slack team' ->
  expectedUserIdsOf (getAllUsers peopleData) team
  = expectedUserIdsOf (getAllUsers peopleData) team' ->
  handleTeam dry client peopleData team = handleTeam dry client peopleData team'.
Proof.
  intros Hn Hd Hs He. unfold handleTeam, groupNameOf, userGroupNameOf.
  rewrite Hn, Hd, Hs.
  destruct (negb (slackTruthy (slack team'))); [done |].
  f_equal.
  unfold ensureMembers. by rewrite He.
Qed.

(** The resolved desired ids only depend on the listed names as a
    multiset: the order of the names and their split between maintainers
    and members do not matter, and neither does the rest of
    [handleTeam]. *)
Theorem listed_order_is_irrelevant (dry : bool) (client : Client)
    (peopleData : list CncfPerson) (team : TeamConfig)
    (ms mbs : list string) :
  maintainers team ++ members team ≡ₚ ms ++ mbs ->
  expectedUserIdsOf (getAllUsers peopleData) (withNames team ms mbs)
  = expectedUserIdsOf (getAllUsers peopleData) team
  /\ handleTeam dry client peopleData (withNames team ms mbs)
     = handleTeam dry client peopleData team.
Proof.
  intros Hp.
  assert (expectedUserIdsOf (getAllUsers peopleData) (withNames team ms mbs)
          = expectedUserIdsOf (getAllUsers peopleData) team) as E.
  { unfold expectedUserIdsOf. apply sort_unique. rewrite !pushExpected_omap.
    simpl. by rewrite Hp. }
  split; [exact E |]. by apply handleTeam_ext.
Qed.

Lemma listed_order_is_irrelevant_sample :
  let people := [Sample.person "alice" "U1"; Sample.person "bob" "U2"] in
  let team := Sample.team "infra" ["alice"] ["bob"] in
  expectedUserIdsOf (getAllUsers people) (withNames team ["bob"; "alice"] [])
  = expectedUserIdsOf (getAllUsers people) team.
Proof.
  apply (listed_order_is_irrelevant true (Sample.client [])
           [Sample.person "alice" "U1"; Sample.person "bob" "U2"]
           (Sample.team "infra" ["alice"] ["bob"]) ["bob"; "alice"] []).
  simpl. apply Permutation_swap.
Defined.

(** The letter case of the names listed in the team is irrelevant:
    lower-casing every listed name changes neither the resolved ids nor
    anything [handleTeam] does. *)
Theorem listed_case_is_irrelevant (dry : bool) (client : Client)
    (peopleData : list CncfPerson) (team : TeamConfig) :
  let lowered := withNames team (JS.toLowerCase <$> maintainers team)
                                (JS.toLowerCase <$> members team) in
  expectedUserIdsOf (getAllUsers peopleData) lowered
  = expectedUserIdsOf (getAllUsers peopleData) team
  /\ handleTeam dry client peopleData lowered
     = handleTeam dry client peopleData team.
Proof.
  intros lowered.
  assert (expectedUserIdsOf (getAllUsers peopleData) lowered
          = expectedUserIdsOf (getAllUsers peopleData) team) as E.
  { assert (forall l : list string,
              omap (resolve (getAllUsers peopleData)) (JS.toLowerCase <$> l)
              = omap (resolve (getAllUsers peopleData)) l) as Hl.
    { induction l as [|u r IH]; [done |].
      assert (resolve (getAllUsers peopleData) (JS.toLowerCase u)
              = resolve (getAllUsers peopleData) u) as Hu
        by (unfold resolve; by rewrite toLowerCase_idem).
      rewrite fmap_cons. cbn [omap list_omap]. rewrite Hu.
      destruct (resolve (getAllUsers peopleData) u); by rewrite IH. }
    unfold expectedUserIdsOf, lowered. simpl. f_equal.
    rewrite !pushExpected_omap. simpl. rewrite <- fmap_app. apply Hl. }
  split; [exact E |]. by apply handleTeam_ext.
Qed.

(** Names that resolve to no directory record contribute nothing:
    dropping them from both lists changes neither the resolved ids nor
    anything [handleTeam] does. *)
Theorem unresolved_names_are_ignored (dry : bool) (client : Client)
    (peopleData : list CncfPerson) (team : TeamConfig) :
  let idx := getAllUsers peopleData in
  let known := filter (fun u => is_Some (resolve idx u)) in
  let pruned := withNames team (known (maintainers team)) (known (members team)) in
  expectedUserIdsOf idx pruned = expectedUserIdsOf idx team
  /\ handleTeam dry client peopleData pruned
     = handleTeam dry client peopleData team
  /\ length (expectedUserIdsOf idx team)
     = length (known (maintainers team ++ members team)).
Proof.
  intros idx known pruned.
  assert (forall l, omap (resolve idx) (known l) = omap (resolve idx) l) as Hk.
  { induction l as [|u r IH]; [done |]. unfold known in *.
    rewrite filter_cons. cbn [omap list_omap].
    destruct (resolve idx u) as [i|] eqn:Hu.
    - rewrite decide_True by by eexists. cbn [omap list_omap].
      rewrite Hu. by rewrite IH.
    - rewrite decide_False by by intros [? ?]. exact IH. }
  assert (forall l, length (omap (resolve idx) l) = length (known l)) as Hl.
  { induction l as [|u r IH]; [done |]. unfold known in *.
    rewrite filter_cons. cbn [omap list_omap].
    destruct (resolve idx u) as [i|] eqn:Hu.
    - rewrite decide_True by by eexists. rewrite !length_cons. by rewrite IH.
    - rewrite decide_False by by intros [? ?]. exact IH. }
  assert (expectedUserIdsOf idx pruned = expectedUserIdsOf idx team) as E.
  { unfold expectedUserIdsOf, pruned. simpl. f_equal.
    rewrite !pushExpected_omap. simpl. unfold known.
    rewrite <- filter_app. apply Hk. }
  split; [exact E |]. split; [by apply handleTeam_ext |].
  rewrite (Permutation_length (expectedUserIdsOf_perm idx team)). apply Hl.
Qed.

End TeamNames.

(** ** When the membership request is sent *)

Section MembershipRequest.

(** For a group found by handle that already has the desired name, the
    live run is silent (no message, no request, normal end) exactly when
    the group's members are a rearrangement of the resolved ids (same
    ids, same multiplicities, any order), and then the dry run is silent
    too; otherwise the live run sends one membership request carrying
    the whole sorted list of resolved ids, and the dry run sends none. *)
Theorem membership_request_iff_not_rearranged (client : Client)
    (peopleData : list CncfPerson) (team : TeamConfig) (g : UserGroup) :
  let idx := getAllUsers peopleData in
  let resolved := omap (resolve idx) (maintainers team ++ members team) in
  slackTruthy (slack team) = true ->
  JS.find (fun g => String.eqb (handle g) (groupNameOf team))
          (getAllGroups (usergroups_list client)) = Some g ->
  name g = userGroupNameOf team ->
  (users g ≡ₚ resolved
   <-> run (handleTeam false client peopleData team)
       = ({| events := []; calls := [] |}, Done tt))
  /\ (users g ≡ₚ resolved ->
      forall dry, run (handleTeam dry client peopleData team)
                  = ({| events := []; calls := [] |}, Done tt))
  /\ (~ users g ≡ₚ resolved ->
      calls (run (handleTeam false client peopleData team)).1
      = [UsergroupsUsersUpdate (id g) (JS.join "," (JS.sort resolved))]
      /\ calls (run (handleTeam true client peopleData team)).1 = []).
Proof.
  intros idx resolved Hs Hf Hn.
  assert (expectedUserIdsOf idx team = JS.sort resolved) as E.
  { unfold expectedUserIdsOf. by rewrite pushExpected_omap. }
  assert (users g ≡ₚ resolved ->
          forall dry, run (handleTeam dry client peopleData team)
                      = ({| events := []; calls := [] |}, Done tt)) as Hsilent.
  { intros Hp dry. apply (converged_noop _ _ _ _ g); [done | done |].
    fold idx. rewrite E. by apply sort_unique. }
  assert (~ users g ≡ₚ resolved ->
          calls (run (handleTeam false client peopleData team)).1
          = [UsergroupsUsersUpdate (id g) (JS.join "," (JS.sort resolved))]
          /\ calls (run (handleTeam true client peopleData team)).1 = []) as Hsent.
  { intros Hp.
    assert (JS.sort (users g) <> expectedUserIdsOf idx team) as Hne.
    { rewrite E. intros H. by apply sort_eq_perm in H. }
    unfold run. rewrite !(handleTeam_found _ _ _ _ g) by done.
    rewrite !ensureName_same by done.
    rewrite !ensureMembers_changed by (try apply indexed_getAllUsers; done).
    unfold usersUpdate. fold idx. rewrite E. done. }
  split; [| split; [exact Hsilent | exact Hsent]].
  split; [intros Hp; apply Hsilent, Hp |].
  intros Hrun.
  destruct (decide (JS.sort (users g) = JS.sort resolved)) as [Heq | Hneq].
  - by apply sort_eq_perm.
  - exfalso.
    assert (~ users g ≡ₚ resolved) as Hp
      by (intros Hp; apply Hneq; by apply sort_unique).
    destruct (Hsent Hp) as [Hcalls _]. rewrite Hrun in Hcalls. discriminate Hcalls.
Qed.

Lemma membership_request_iff_not_rearranged_sample :
  let people := [Sample.person "alice" "U1"; Sample.person "bob" "U2"] in
  let team := Sample.team "infra" ["bob"] ["alice"] in
  run (handleTeam false (Sample.client [Sample.group "S1" "infra" "infra" ["U1"; "U2"]])
         people team)
  = ({| events := []; calls := [] |}, Done tt)
  /\ calls (run (handleTeam false
                   (Sample.client [Sample.group "S1" "infra" "infra" ["U2"; "U2"; "U1"]])
                   people team)).1
     = [UsergroupsUsersUpdate "S1" "U1,U2"].
Proof.
  split.
  - apply (membership_request_iff_not_rearranged
             (Sample.client [Sample.group "S1" "infra" "infra" ["U1"; "U2"]])
             [Sample.person "alice" "U1"; Sample.person "bob" "U2"]
             (Sample.team "infra" ["bob"] ["alice"])
             (Sample.group "S1" "infra" "infra" ["U1"; "U2"]));
      [vm_compute; reflexivity | vm_compute; reflexivity | vm_compute; reflexivity |].
    vm_compute. apply Permutation_swap.
  - apply (membership_request_iff_not_rearranged
             (Sample.client [Sample.group "S1" "infra" "infra" ["U2"; "U2"; "U1"]])
             [Sample.person "alice" "U1"; Sample.person "bob" "U2"]
             (Sample.team "infra" ["bob"] ["alice"])
             (Sample.group "S1" "infra" "infra" ["U2"; "U2"; "U1"]));
      [vm_compute; reflexivity | vm_compute; reflexivity | vm_compute; reflexivity |].
    vm_compute. intros H. apply Permutation_length in H. discriminate H.
Defined.

(** When no listed name resolves and the group found by handle (with
    the desired name) still has members, every member is reported as
    evicted and the live run sends a membership request whose [users]
    field is the empty string. *)
Theorem empty_desired_membership (client : Client)
    (peopleData : list CncfPerson) (team : TeamConfig) (g : UserGroup) :
  let idx := getAllUsers peopleData in
  slackTruthy (slack team) = true ->
  JS.find (fun g => String.eqb (handle g) (groupNameOf team))
          (getAllGroups (usergroups_list client)) = Some g ->
  name g = userGroupNameOf team ->
  Forall (fun u => resolve idx u = None) (maintainers team ++ members team) ->
  users g <> [] ->
  (run (handleTeam false client peopleData team)).1
  = {| events := [MembersRemoved
                    (englishCommaJoin (removedIdentity idx <$> JS.sort (users g)))
                    (handle g)];
       calls := [UsergroupsUsersUpdate (id g) ""] |}.
Proof.
  intros idx Hs Hf Hn Hnone Hu.
  assert (expectedUserIdsOf idx team = []) as E.
  { unfold expectedUserIdsOf. rewrite pushExpected_omap. simpl.
    induction (maintainers team ++ members team) as [|u r IH]; [done |].
    apply Forall_cons in Hnone as [Hu0 Hr]. cbn [omap list_omap].
    unfold resolve in Hu0. rewrite Hu0. by apply IH. }
  assert (JS.sort (users g) <> expectedUserIdsOf idx team) as Hne.
  { rewrite E. intros H. apply Hu. apply Permutation_nil_r.
    rewrite <- H. symmetry. apply sort_perm. }
  unfold run. rewrite (handleTeam_found _ _ _ _ g) by done.
  rewrite ensureName_same by done.
  rewrite ensureMembers_changed by (try apply indexed_getAllUsers; done).
  unfold membersEvents, usersUpdate. fold idx. rewrite E.
  assert (missingFrom [] (JS.sort (users g)) = JS.sort (users g)) as ->.
  { unfold missingFrom. clear. induction (JS.sort (users g)) as [|i r IH]; [done |].
    rewrite filter_cons. case_decide as Hi; [by rewrite IH |].
    by apply not_elem_of_nil in Hi. }
  assert (missingFrom (JS.sort (users g)) [] = []) as -> by done.
  destruct (JS.sort (users g)) as [|i r] eqn:Hsort.
  - exfalso. apply Hne. by rewrite E.
  - done.
Qed.

Lemma empty_desired_membership_sample :
  let g := Sample.group "S1" "infra" "infra" ["U7"] in
  (run (handleTeam false (Sample.client [g]) [Sample.person "alice" "U1"]
          (Sample.team "infra" [] ["carol"]))).1
  = {| events := [MembersRemoved "<@U7>" "infra"];
       calls := [UsergroupsUsersUpdate "S1" ""] |}.
Proof.
  intros g.
  rewrite (empty_desired_membership (Sample.client [g]) [Sample.person "alice" "U1"]
             (Sample.team "infra" [] ["carol"]) g);
    try (vm_compute; reflexivity).
  - repeat constructor.
  - vm_compute. congruence.
Defined.

(** Sorting a listed group's member array (what the in-place sort of
    [handleTeam] leaves behind in the listed object) changes nothing about
    a run that reads the listing afterwards. *)
Theorem sorting_listed_members_is_unobservable (dry : bool) (client : Client)
    (peopleData : list CncfPerson) (team : TeamConfig) :
  run (handleTeam dry
         (withListing client (sortedInPlace <$> usergroups_list client listOptions))
         peopleData team)
  = run (handleTeam dry client peopleData team).
Proof.
  unfold run.
  destruct (slackTruthy (slack team)) eqn:Hs.
  2:{ by rewrite !handleTeam_skipped. }
  set (client' := withListing client _).
  assert (getAllGroups (usergroups_list client')
          = sortedInPlace <$> getAllGroups (usergroups_list client)) as Hg.
  { unfold getAllGroups, client'. simpl. by apply internal_fmap. }
  assert (JS.find (fun g => String.eqb (handle g) (groupNameOf team))
            (getAllGroups (usergroups_list client'))
          = sortedInPlace <$>
              JS.find (fun g => String.eqb (handle g) (groupNameOf team))
                (getAllGroups (usergroups_list client))) as Hf.
  { rewrite Hg. by apply find_fmap_preserving. }
  destruct (JS.find (fun g => String.eqb (handle g) (groupNameOf team))
              (getAllGroups (usergroups_list client))) as [g|] eqn:Hfind.
  - rewrite (handleTeam_found _ client' _ _ (sortedInPlace g)) by done.
    rewrite (handleTeam_found _ client _ _ g) by done.
    assert (forall t, ensureName dry client' (sortedInPlace g) (userGroupNameOf team) t
                      = ensureName dry client g (userGroupNameOf team) t) as -> by done.
    assert (forall t, ensureMembers dry client' (getAllUsers peopleData)
                        (sortedInPlace g) team t
                      = ensureMembers dry client (getAllUsers peopleData) g team t)
      as Hm.
    { intros t. unfold ensureMembers. simpl. by rewrite sort_idem. }
    destruct (ensureName dry client g (userGroupNameOf team) _) as [t' []]; [| done].
    apply Hm.
  - destruct dry.
    + rewrite !handleTeam_absent_dry by done. done.
    + rewrite !handleTeam_absent_live by done. done.
Qed.

End MembershipRequest.

(** ** The shape of a run *)

Section Shape.

Lemma membersEvents_shape idx g team :
  Forall (fun e => eventHandle e = handle g) (membersEvents idx g team)
  /\ (eventRank <$> membersEvents idx g team) `sublist_of` [1; 2]%nat.
Proof.
  unfold membersEvents.
  destruct (decide (removedIdentity idx <$> _ = []));
    destruct (decide (addedName idx <$> _ = [])); simpl;
    split; repeat constructor.
Qed.

(** Every message of a run names the team's handle, and the messages come
    in a fixed order without repetition: at most one creation or rename
    message, then at most one eviction message, then at most one addition
    message; a run never reports more than three messages. *)
Theorem events_of_a_run (dry : bool) (client : Client)
    (peopleData : list CncfPerson) (team : TeamConfig) :
  let es := events (run (handleTeam dry client peopleData team)).1 in
  Forall (fun e => eventHandle e = groupNameOf team) es
  /\ (eventRank <$> es) `sublist_of` [0; 1; 2]%nat
  /\ (length es <= 3)%nat.
Proof.
  intros es.
  assert (Forall (fun e => eventHandle e = groupNameOf team) es
          /\ (eventRank <$> es) `sublist_of` [0; 1; 2]%nat) as [H1 H2].
  2:{ split; [done |]. split; [done |].
      apply sublist_length in H2. by rewrite length_fmap in H2. }
  unfold es, run. clear es.
  destruct (slackTruthy (slack team)) eqn:Hs.
  2:{ rewrite handleTeam_skipped by done. simpl. split; repeat constructor. }
  destruct (JS.find (fun g => String.eqb (handle g) (groupNameOf team))
              (getAllGroups (usergroups_list client))) as [g|] eqn:Hf.
  - destruct (find_handle_some _ _ _ Hf) as [_ Hh].
    destruct (membersEvents_shape (getAllUsers peopleData) g team) as [Hm1 Hm2].
    rewrite Hh in Hm1.
    rewrite (handleTeam_found _ _ _ _ g) by done.
    branch_name dry client g team.
    + branch_members (getAllUsers peopleData) g team.
      * simpl. split; repeat constructor.
      * destruct dry; simpl; (split; [done | by apply sublist_cons]).
    + assert (Forall (fun e => eventHandle e = groupNameOf team)
                [GroupRenamed (handle g) (name g) (userGroupNameOf team)]) as Hr
        by (by repeat constructor).
      destruct dry; [| destruct (usergroups_update client _ _)].
      all: try (branch_members (getAllUsers peopleData) g team).
      all: try destruct dry.
      all: simpl; split.
      all: try (apply Forall_cons; split; [done |]).
      all: try done.
      all: try (by repeat constructor).
      all: try (by apply sublist_skip).
  - destruct dry.
    all: try (rewrite handleTeam_absent_dry by done).
    all: try (rewrite handleTeam_absent_live by done; simpl;
              destruct (usergroups_create client _ _) as [newId|];
              [destruct (usergroups_list_again client _) |]).
    all: try match goal with
         | |- context [ensureMembers ?d ?c ?idx ?g ?team] =>
             let Hc := fresh "Hc" in
             destruct (decide (JS.sort (users g) = expectedUserIdsOf idx team))
               as [Hc | Hc];
             [ rewrite (ensureMembers_converged d c idx g team) by exact Hc
             | rewrite (ensureMembers_changed d c idx g team)
                 by (try apply indexed_getAllUsers; exact Hc) ]
         end.
    all: try match goal with
         | |- context [membersEvents ?idx (newGroup ?i ?n ?h) ?team] =>
             let Ed := fresh "Ed" in
             destruct (membersEvents_newGroup idx i n h team) as [Ed | [? Ed]];
             rewrite Ed
         end.
    all: simpl; split; repeat constructor.
Qed.

(** The requests of a run.  For a handle that is listed, they are taken,
    in this order, from the rename of the first listed internal group
    with that handle and the membership request for the same group.  For
    a handle that is not listed, they are the creation request, followed
    at most by the membership request for the id the creation returned;
    a group just created is never renamed.  The membership request
    always carries the whole list of resolved ids. *)
Theorem requests_of_a_run (dry : bool) (client : Client)
    (peopleData : list CncfPerson) (team : TeamConfig) :
  let cs := calls (run (handleTeam dry client peopleData team)).1 in
  let groupName := groupNameOf team in
  let userGroupName := userGroupNameOf team in
  let payload := JS.join "," (expectedUserIdsOf (getAllUsers peopleData) team) in
  match JS.find (fun g => String.eqb (handle g) groupName)
                (getAllGroups (usergroups_list client)) with
  | Some g =>
      g ∈ usergroups_list client listOptions
      /\ is_external g = false
      /\ cs `sublist_of` [UsergroupsUpdate (id g) userGroupName;
                          UsergroupsUsersUpdate (id g) payload]
  | None =>
      cs = []
      \/ cs = [UsergroupsCreate groupName userGroupName]
      \/ exists newId,
           usergroups_create client groupName userGroupName = Some newId
           /\ cs = [UsergroupsCreate groupName userGroupName;
                    UsergroupsUsersUpdate newId payload]
  end.
Proof.
  intros cs groupName userGroupName payload.
  unfold cs, run, groupName, userGroupName, payload.
  clear cs groupName userGroupName payload.
  destruct (JS.find (fun g => String.eqb (handle g) (groupNameOf team))
              (getAllGroups (usergroups_list client))) as [g|] eqn:Hf.
  - destruct (find_handle_some _ _ _ Hf) as [Hin _].
    unfold getAllGroups in Hin. apply list_elem_of_filter in Hin as [Hext Hin].
    split; [done |]. split; [by destruct (is_external g) |].
    destruct (slackTruthy (slack team)) eqn:Hs.
    2:{ rewrite handleTeam_skipped by done. simpl. apply sublist_nil_l. }
    rewrite (handleTeam_found _ _ _ _ g) by done.
    branch_name dry client g team;
      [| destruct dry; [| destruct (usergroups_update client _ _)]].
    all: try (branch_members (getAllUsers peopleData) g team).
    all: try destruct dry.
    all: simpl; unfold usersUpdate.
    all: repeat first [ apply sublist_nil_l | apply sublist_skip | apply sublist_cons ].
  - destruct (slackTruthy (slack team)) eqn:Hs.
    2:{ rewrite handleTeam_skipped by done. by left. }
    destruct dry.
    + rewrite handleTeam_absent_dry by done.
      match goal with
      | |- context [ensureMembers ?d ?c ?idx ?g ?team] =>
          destruct (decide (JS.sort (users g) = expectedUserIdsOf idx team))
            as [Hc | Hc];
          [ rewrite (ensureMembers_converged d c idx g team) by exact Hc
          | rewrite (ensureMembers_changed d c idx g team)
              by (try apply indexed_getAllUsers; exact Hc) ]
      end; by left.
    + rewrite handleTeam_absent_live by done. simpl.
      destruct (usergroups_create client _ _) as [newId|] eqn:Hcreate;
        [destruct (usergroups_list_again client _) |].
      all: try (right; by left).
      match goal with
      | |- context [ensureMembers ?d ?c ?idx ?g ?team] =>
          destruct (decide (JS.sort (users g) = expectedUserIdsOf idx team))
            as [Hc | Hc];
          [ rewrite (ensureMembers_converged d c idx g team) by exact Hc
          | rewrite (ensureMembers_changed d c idx g team)
              by (try apply indexed_getAllUsers; exact Hc) ]
      end.
      * right. by left.
      * right. right. exists newId. by split.
Qed.


End Shape.

(** ** The joined text in general *)

Section CommaJoinGeneral.

(** The text [englishCommaJoin] builds, for every list: a single
    element is rendered as itself, and a list of two or more elements
    is rendered from all elements but the last two, joined by commas,
    followed by [" and "] and the last element, so the text is the same
    whatever the element before the last is. *)
Theorem englishCommaJoin_general (pre : list string) (x x' y : string) :
  englishCommaJoin [y] = y
  /\ englishCommaJoin (pre ++ [x; y]) = JS.join ", " pre +:+ " and " +:+ y
  /\ englishCommaJoin (pre ++ [x; y]) = englishCommaJoin (pre ++ [x'; y]).
Proof.
  assert (forall z, englishCommaJoin (pre ++ [z; y])
                    = JS.join ", " pre +:+ " and " +:+ y) as H.
  { intros z. unfold englishCommaJoin, JS.slice.
    rewrite length_app. simpl length.
    replace (length pre + 2 <=? 1)%nat with false
      by (symmetry; apply Nat.leb_gt; lia).
    replace (length pre + 2 - 2 - 0)%nat with (length pre) by lia.
    replace (length pre + 2 - 1)%nat with (length pre + 1)%nat by lia.
    rewrite drop_0, take_app_length.
    rewrite app_nth2 by lia.
    replace (length pre + 1 - length pre)%nat with 1%nat by lia.
    done. }
  split; [done |]. split; [apply H | by rewrite !H].
Qed.

End CommaJoinGeneral.

(** ** Loading the directory *)

Section Loading.

Lemma foldl_addEntry_github_other (l : list CncfPerson) (idx : Users) (k : string) :
  Forall (fun e => slack_id e <> "" -> github (stripGithub e) <> k) l ->
  cncfByGithub (foldl addEntry idx l) !! k = cncfByGithub idx !! k.
Proof.
  revert idx. induction l as [|e r IH]; intros idx H; [done |].
  apply Forall_cons in H as [He Hr]. simpl. rewrite IH by done.
  destruct (decide (slack_id e = "")) as [Hs | Hs].
  - by rewrite addEntry_skip.
  - rewrite addEntry_keep by done. simpl. by rewrite lookup_insert_ne by auto.
Qed.

Lemma foldl_addEntry_slack_other (l : list CncfPerson) (idx : Users) (k : string) :
  Forall (fun e => slack_id e <> k) l -> k <> "" ->
  cncfBySlackID (foldl addEntry idx l) !! k = cncfBySlackID idx !! k.
Proof.
  revert idx. induction l as [|e r IH]; intros idx H Hk; [done |].
  apply Forall_cons in H as [He Hr]. simpl. rewrite IH by done.
  destruct (decide (slack_id e = "")) as [Hs | Hs].
  - by rewrite addEntry_skip.
  - rewrite addEntry_keep by done. simpl. by rewrite lookup_insert_ne.
Qed.

(** Each index returns the last record loaded under a key.  A record with
    a Slack id is found under its stripped GitHub name unless a later
    record with a Slack id has the same stripped name, and under its
    Slack id unless a later record has the same Slack id; a listed name
    whose lower-case form is that stripped name then resolves to the
    record's Slack id. *)
Theorem last_record_wins (before after : list CncfPerson) (entry : CncfPerson) :
  let idx := getAllUsers (before ++ entry :: after) in
  slack_id entry <> "" ->
  (Forall (fun e => slack_id e <> "" ->
                    github (stripGithub e) <> github (stripGithub entry)) after ->
   cncfByGithub idx !! github (stripGithub entry) = Some (stripGithub entry)
   /\ forall username,
        JS.toLowerCase username = github (stripGithub entry) ->
        resolve idx username = Some (slack_id entry))
  /\ (Forall (fun e => slack_id e <> slack_id entry) after ->
      cncfBySlackID idx !! slack_id entry = Some (stripGithub entry)).
Proof.
  intros idx Hs. unfold idx, getAllUsers. clear idx.
  rewrite foldl_app. cbn [foldl]. rewrite (addEntry_keep _ _ Hs).
  set (loaded := foldl addEntry noUsers before).
  split.
  - intros Hafter.
    assert (cncfByGithub
              (foldl addEntry
                 {| cncfBySlackID :=
                      <[slack_id entry := stripGithub entry]> (cncfBySlackID loaded);
                    cncfByGithub :=
                      <[github (stripGithub entry) := stripGithub entry]>
                        (cncfByGithub loaded) |} after)
              !! github (stripGithub entry) = Some (stripGithub entry)) as E.
    { rewrite foldl_addEntry_github_other by done.
      cbn [cncfByGithub]. apply lookup_insert_eq. }
    split; [exact E |].
    intros username Hu. unfold resolve. rewrite Hu, E. done.
  - intros Hafter. rewrite foldl_addEntry_slack_other by done.
    cbn [cncfBySlackID]. apply lookup_insert_eq.
Qed.

Lemma last_record_wins_sample :
  let first := Sample.person "https://github.com/alice" "U1" in
  let second := Sample.person "alice" "U2" in
  resolve (getAllUsers [first; second]) "Alice" = Some "U2"
  /\ cncfBySlackID (getAllUsers [first; second]) !! "U1" = Some (stripGithub first).
Proof.
  intros first second. split.
  - apply (last_record_wins [first] [] second); try done.
  - apply (last_record_wins [] [second] first); try done.
    repeat constructor. vm_compute. congruence.
Defined.

Lemma prefix_lacks (c : ascii) (pat s : string) :
  String.prefix pat s = true -> lacks c s = true -> lacks c pat = true.
Proof.
  revert s. induction pat as [|a pat IH]; intros s; [done |].
  destruct s as [|b s]; simpl; [done |].
  destruct (ascii_dec a b) as [-> | _]; [| done].
  intros Hp Hl. apply andb_true_iff in Hl as [Hb Hl].
  rewrite Hb. simpl. by apply (IH s).
Qed.

Lemma replace_absent (c : ascii) (pat rep s : string) :
  lacks c pat = false -> lacks c s = true -> JS.replace pat rep s = s.
Proof.
  intros Hpat. induction s as [|b s IH]; intros Hl.
  - cbn [JS.replace]. destruct (String.prefix pat "") eqn:Hp; [| done].
    pose proof (prefix_lacks c pat "" Hp Hl). congruence.
  - cbn [JS.replace]. destruct (String.prefix pat (String b s)) eqn:Hp.
    + pose proof (prefix_lacks c pat _ Hp Hl). congruence.
    + simpl in Hl. apply andb_true_iff in Hl as [_ Hl]. by rewrite IH.
Qed.

Lemma substring_all (s : string) : String.substring 0 (String.length s) s = s.
Proof. induction s as [|c s IH]; simpl; [done | by rewrite IH]. Qed.

Lemma prefix_append (pat v : string) : String.prefix pat (pat +:+ v) = true.
Proof.
  induction pat as [|a pat IH]; [by destruct v |].
  change (String a pat +:+ v) with (String a (pat +:+ v)). simpl.
  by destruct (ascii_dec a a).
Qed.

Lemma substring_append (pat v : string) :
  String.substring (String.length pat)
    (String.length (pat +:+ v) - String.length pat) (pat +:+ v) = v.
Proof.
  induction pat as [|a pat IH].
  - change ("" +:+ v) with v. simpl. rewrite Nat.sub_0_r. apply substring_all.
  - change (String a pat +:+ v) with (String a (pat +:+ v)). simpl. exact IH.
Qed.

(** A pattern found at the start is removed there. *)
Lemma replace_at_start (pat v : string) : JS.replace pat "" (pat +:+ v) = v.
Proof.
  assert (forall s, JS.replace pat "" s
                    = if String.prefix pat s
                      then "" +:+ String.substring (String.length pat)
                                    (String.length s - String.length pat) s
                      else match s with
                           | EmptyString => EmptyString
                           | String c r => String c (JS.replace pat "" r)
                           end) as Hunfold by (by intros []).
  rewrite Hunfold, prefix_append. apply substring_append.
Qed.

(** What [getAllUsers] stores as GitHub name.  A profile URL
    [https://github.com/NAME] is stored as [NAME], a bare name is stored
    unchanged; since the second replacement looks for the four
    characters [//$/], nothing else is removed, in particular not a
    trailing slash.  (Stated for names without the characters [$] and
    [:].) *)
Theorem stored_github_name (entry : CncfPerson) (u : string) :
  lacks "$" u = true ->
  github (stripGithub (withGithub entry ("https://github.com/" +:+ u))) = u
  /\ github (stripGithub (withGithub entry ("https://github.com/" +:+ u +:+ "/")))
     = u +:+ "/"
  /\ (lacks ":" u = true -> github (stripGithub (withGithub entry u)) = u).
Proof.
  intros Hd.
  assert (forall v, JS.replace "https://github.com/" "" ("https://github.com/" +:+ v) = v)
    as Hprefix.
  { intros v. apply replace_at_start. }
  assert (lacks "$" (u +:+ "/") = true) as Hd'.
  { clear -Hd. induction u as [|c u IH]; [done |].
    simpl in Hd. apply andb_true_iff in Hd as [Hc Hu].
    change (String c u +:+ "/") with (String c (u +:+ "/")).
    simpl. rewrite Hc. by apply IH. }
  unfold stripGithub, withGithub. cbn [github].
  split; [| split].
  - rewrite Hprefix. by apply (replace_absent "$").
  - rewrite (Hprefix (u +:+ "/")). by apply (replace_absent "$").
  - intros Hc. rewrite (replace_absent ":" _ _ u) by done.
    by apply (replace_absent "$").
Qed.

Lemma stored_github_name_sample :
  github (stripGithub (Sample.person "https://github.com/alice/" "U1")) = "alice/"
  /\ github (stripGithub (Sample.person "bob" "U2")) = "bob".
Proof.
  split.
  - apply (stored_github_name (Sample.person "" "U1") "alice"). reflexivity.
  - apply (stored_github_name (Sample.person "" "U2") "bob"); reflexivity.
Defined.

End Loading.

(** ** The plugin list *)

Section PluginList.

Lemma split_join (names : list string) :
  names <> [] ->
  Forall (fun n => Slack.commaFree n = true) names ->
  Slack.split (JS.join "," names) = names.
Proof.
  unfold JS.join. induction names as [|x r IH]; [done |].
  intros _ H. apply Forall_cons in H as [Hx Hr].
  destruct r as [|y r'].
  - simpl. by apply split_commaFree.
  - change (String.concat "," (x :: y :: r'))
      with (x +:+ "," +:+ String.concat "," (y :: r')).
    rewrite split_append by done. f_equal. by apply IH.
Qed.

Lemma plugins_sublist (SHERIFF_PLUGINS : string) :
  Plugins.plugins SHERIFF_PLUGINS
    `sublist_of` [Plugins.gsuitePlugin; Plugins.slackPlugin; Plugins.cncfSlackPlugin].
Proof.
  unfold Plugins.plugins, Plugins.pushIfEnabled.
  destruct (JS.includes _ (Plugins.pluginName Plugins.gsuitePlugin));
    destruct (JS.includes _ (Plugins.pluginName Plugins.slackPlugin));
    destruct (JS.includes _ (Plugins.pluginName Plugins.cncfSlackPlugin));
    simpl;
    repeat first [ apply sublist_nil_l | apply sublist_skip | apply sublist_cons ].
Qed.

Lemma elem_of_pushIfEnabled (enabled : list string) (p q : Plugins.Plugin)
    (l : list Plugins.Plugin) :
  q ∈ Plugins.pushIfEnabled enabled p l
  <-> q ∈ l \/ (q = p /\ JS.includes enabled (Plugins.pluginName p) = true).
Proof.
  unfold Plugins.pushIfEnabled.
  destruct (JS.includes enabled (Plugins.pluginName p)).
  - rewrite elem_of_app, list_elem_of_singleton. intuition.
  - intuition congruence.
Qed.

Lemma plugins_membership (SHERIFF_PLUGINS : string) (p : Plugins.Plugin) :
  p ∈ Plugins.plugins SHERIFF_PLUGINS
  <-> Plugins.pluginName p ∈ Plugins.enabledPlugins SHERIFF_PLUGINS.
Proof.
  rewrite <- includes_true. unfold Plugins.plugins.
  rewrite !elem_of_pushIfEnabled.
  split.
  - intros [[[Hnil | [-> H]] | [-> H]] | [-> H]]; try done.
    by apply not_elem_of_nil in Hnil.
  - intros H. destruct p; auto.
Qed.

(** Whatever [SHERIFF_PLUGINS] holds, the exported plugins come in the
    fixed order gsuite, slack, cncfSlack, each at most once, and a plugin
    is exported exactly when its name is one of the comma separated
    fields of [SHERIFF_PLUGINS], compared as written (no trimming, no
    change of letter case). *)
Theorem plugins_fixed_order (SHERIFF_PLUGINS : string) :
  Plugins.plugins SHERIFF_PLUGINS
    `sublist_of` [Plugins.gsuitePlugin; Plugins.slackPlugin; Plugins.cncfSlackPlugin]
  /\ NoDup (Plugins.plugins SHERIFF_PLUGINS)
  /\ forall p, p ∈ Plugins.plugins SHERIFF_PLUGINS
               <-> Plugins.pluginName p ∈ Plugins.enabledPlugins SHERIFF_PLUGINS.
Proof.
  split; [apply plugins_sublist |]. split; [| apply plugins_membership].
  apply (sublist_NoDup _ [Plugins.gsuitePlugin; Plugins.slackPlugin;
                          Plugins.cncfSlackPlugin]);
    [| apply plugins_sublist].
  repeat (apply NoDup_cons; split;
          [rewrite ?elem_of_cons, elem_of_nil; intuition discriminate |]).
  apply NoDup_nil_2.
Qed.

(** When [SHERIFF_PLUGINS] is the comma separated list of one or more
    names that contain no comma, a plugin is exported exactly when its
    name is among them, whatever their order and repetitions. *)
Theorem plugins_of_joined_names (names : list string) (p : Plugins.Plugin) :
  names <> [] ->
  Forall (fun n => Slack.commaFree n = true) names ->
  Plugins.enabledPlugins (JS.join "," names) = names
  /\ (p ∈ Plugins.plugins (JS.join "," names) <-> Plugins.pluginName p ∈ names).
Proof.
  intros Hne Hc.
  assert (Plugins.enabledPlugins (JS.join "," names) = names) as E
    by (by apply split_join).
  split; [exact E |].
  rewrite plugins_membership. by rewrite E.
Qed.

Lemma plugins_of_joined_names_sample :
  Plugins.plugins "cncfSlack,gsuite,cncfSlack"
  = [Plugins.gsuitePlugin; Plugins.cncfSlackPlugin]
  /\ Plugins.plugins "" = []
  /\ Plugins.plugins "gsuite, slack" = [Plugins.gsuitePlugin]
  /\ (Plugins.slackPlugin ∈ Plugins.plugins (JS.join "," ["cncfSlack"; "slack"])
      <-> Plugins.pluginName Plugins.slackPlugin ∈ ["cncfSlack"; "slack"]).
Proof.
  split; [vm_compute; reflexivity |].
  split; [vm_compute; reflexivity |].
  split; [vm_compute; reflexivity |].
  apply (plugins_of_joined_names ["cncfSlack"; "slack"] Plugins.slackPlugin).
  - congruence.
  - repeat constructor.
Defined.

End PluginList.

(** ** What a run reads of the listing *)

Section ListingReads.

Lemma getAllGroups_without_external (before after : list UserGroup)
    (foreign : UserGroup) :
  is_external foreign = true ->
  getAllGroups (fun _ => before ++ foreign :: after)
  = getAllGroups (fun _ => before ++ after).
Proof.
  intros H. unfold getAllGroups. rewrite !filter_app, filter_cons.
  by rewrite H.
Qed.

Lemma find_handle_none_external (gs : list UserGroup) (h : string) :
  Forall (fun g => handle g = h -> is_external g = true) gs ->
  JS.find (fun g => String.eqb (handle g) h) (getAllGroups (fun _ => gs)) = None.
Proof.
  unfold getAllGroups. induction gs as [|g r IH]; intros H; [done |].
  apply Forall_cons in H as [Hg Hr]. rewrite filter_cons.
  destruct (decide (negb (is_external g) = true)) as [Hint | Hext].
  - simpl. destruct (String.eqb_spec (handle g) h) as [Hh | Hh]; [| by apply IH].
    rewrite (Hg Hh) in Hint. discriminate Hint.
  - by apply IH.
Qed.

(** External groups do not exist for [handleTeam].  Putting an external
    group anywhere into the listing, whatever its handle, name and
    members, leaves the run unchanged; and when every listed group with
    the team's handle is external, the run of a team that passes the
    guard treats the handle as absent: it reports the creation first and
    the live run opens with the creation request. *)
Theorem external_groups_are_invisible (dry : bool) (client : Client)
    (peopleData : list CncfPerson) (team : TeamConfig)
    (before after : list UserGroup) (foreign : UserGroup) :
  is_external foreign = true ->
  run (handleTeam dry (withListing client (before ++ foreign :: after))
         peopleData team)
  = run (handleTeam dry (withListing client (before ++ after)) peopleData team)
  /\ (slackTruthy (slack team) = true ->
      Forall (fun g => handle g = groupNameOf team -> is_external g = true)
             (before ++ foreign :: after) ->
      let outcome :=
        (run (handleTeam dry (withListing client (before ++ foreign :: after))
                peopleData team)).1 in
      (exists rest, events outcome = GroupCreated (groupNameOf team) :: rest)
      /\ (dry = false ->
          exists more,
            calls outcome
            = UsergroupsCreate (groupNameOf team) (userGroupNameOf team) :: more)).
Proof.
  intros Hext. split.
  - unfold run, handleTeam.
    change (usergroups_list (withListing client (before ++ foreign :: after)))
      with (fun _ : ListOptions => before ++ foreign :: after).
    change (usergroups_list (withListing client (before ++ after)))
      with (fun _ : ListOptions => before ++ after).
    by rewrite (getAllGroups_without_external _ _ _ Hext).
  - intros Hs Hall outcome. unfold outcome, run. clear outcome.
    set (client' := withListing client (before ++ foreign :: after)).
    assert (JS.find (fun g => String.eqb (handle g) (groupNameOf team))
              (getAllGroups (usergroups_list client')) = None) as Hf
      by (by apply find_handle_none_external).
    destruct dry.
    + rewrite handleTeam_absent_dry by done.
      match goal with
      | |- context [ensureMembers ?d ?c ?idx ?g ?team] =>
          destruct (decide (JS.sort (users g) = expectedUserIdsOf idx team))
            as [Hc | Hc];
          [ rewrite (ensureMembers_converged d c idx g team) by exact Hc
          | rewrite (ensureMembers_changed d c idx g team)
              by (try apply indexed_getAllUsers; exact Hc) ]
      end; simpl; (split; [by eexists | done]).
    + rewrite handleTeam_absent_live by done. simpl.
      destruct (usergroups_create client _ _) as [newId|];
        [destruct (usergroups_list_again client _) |].
      all: try match goal with
           | |- context [ensureMembers ?d ?c ?idx ?g ?team] =>
               destruct (decide (JS.sort (users g) = expectedUserIdsOf idx team))
                 as [Hc | Hc];
               [ rewrite (ensureMembers_converged d c idx g team) by exact Hc
               | rewrite (ensureMembers_changed d c idx g team)
                   by (try apply indexed_getAllUsers; exact Hc) ]
           end.
      all: simpl; (split; [by eexists | intros _; by eexists]).
Qed.

Lemma external_groups_are_invisible_sample :
  let foreign :=
    {| id := "S0"; date_delete := 0; name := "Other"; handle := "infra";
       users := ["U9"]; is_external := true |} in
  let people := [Sample.person "alice" "U1"] in
  let team := Sample.team "infra" ["alice"] [] in
  run (handleTeam false (withListing (Sample.client []) [foreign]) people team)
  = run (handleTeam false (withListing (Sample.client []) []) people team)
  /\ (exists more,
        calls (run (handleTeam false (withListing (Sample.client []) [foreign])
                      people team)).1
        = UsergroupsCreate "infra" "infra" :: more)
  /\ calls (run (handleTeam false (withListing (Sample.client []) [foreign])
                   people team)).1
     = [UsergroupsCreate "infra" "infra"; UsergroupsUsersUpdate "S0NEW" "U1"].
Proof.
  intros foreign people team.
  destruct (external_groups_are_invisible false (Sample.client []) people team
              [] [] foreign eq_refl) as [Hsame Habsent].
  split; [exact Hsame |].
  split; [| vm_compute; reflexivity].
  apply Habsent; [reflexivity | | reflexivity].
  repeat constructor.
Defined.

(** The deletion time of a listed group is never read: giving every
    listed group another [date_delete] leaves the run unchanged. *)
Theorem date_delete_is_never_read (dry : bool) (client : Client)
    (peopleData : list CncfPerson) (team : TeamConfig) (d : nat) :
  run (handleTeam dry
         (withListing client (withDateDelete d <$> usergroups_list client listOptions))
         peopleData team)
  = run (handleTeam dry client peopleData team).
Proof.
  unfold run.
  destruct (slackTruthy (slack team)) eqn:Hs.
  2:{ by rewrite !handleTeam_skipped. }
  set (client' := withListing client _).
  assert (JS.find (fun g => String.eqb (handle g) (groupNameOf team))
            (getAllGroups (usergroups_list client'))
          = withDateDelete d <$>
              JS.find (fun g => String.eqb (handle g) (groupNameOf team))
                (getAllGroups (usergroups_list client))) as Hf.
  { unfold getAllGroups, client'. simpl. rewrite internal_fmap by done.
    by apply find_fmap_preserving. }
  destruct (JS.find (fun g => String.eqb (handle g) (groupNameOf team))
              (getAllGroups (usergroups_list client))) as [g|] eqn:Hfind.
  - rewrite (handleTeam_found _ client' _ _ (withDateDelete d g)) by done.
    by rewrite (handleTeam_found _ client _ _ g) by done.
  - destruct dry.
    + by rewrite !handleTeam_absent_dry by done.
    + by rewrite !handleTeam_absent_live by done.
Qed.

End ListingReads.
